(** * Sentinel: a shallow embedding of the observability proxy

    The Rust sources live in [src/src]: [parsers.rs] (the SSE and JSON
    response parsers), [proxy.rs] (the proxy handler, the streaming mirror
    task and the request-metadata extractors), [agent.rs] (the agent store
    over its SQLite table), [cli.rs] (the HTTP listing handler and the
    console listing, [logs] and [truncate_path_for_display]), [sse.rs]
    (the subscriber endpoint over a tokio broadcast channel) and
    [storage.rs] (the [events] table).

    Rust [&str]/[String] values are modelled as Rocq [string]s read as byte
    strings (the UTF-8 encoding of the text); every operation the code uses
    on them ([find], [strip_prefix], [lines], [rsplit_once], [push_str]) is
    byte-oriented, so this is exact.  A [serde_json::Value] is the inductive
    [Json.json]; its parser [serde_json::from_str] is [Json.from_str]. *)

From Stdlib Require Import String Ascii List ZArith Bool Lia Sorted Permutation.
Import ListNotations.
Set Warnings "-register-all -abstract-large-number".


Local Open Scope list_scope.
Local Open Scope string_scope.
Local Open Scope nat_scope.

(** ** Bytes *)
Module Bytes.

Definition byte (n : nat) : ascii := ascii_of_nat n.
Definition code (c : ascii) : nat := nat_of_ascii c.

Definition LF : ascii := byte 10.
Definition CR : ascii := byte 13.
Definition DQUOTE : ascii := byte 34.
Definition BSLASH : ascii := byte 92.

(** [s] with every backquote replaced by a double quote: lets JSON text be
    written inside Rocq string literals. *)
Fixpoint q (s : string) : string :=
  match s with
  | EmptyString => EmptyString
  | String c r => String (if Ascii.eqb c "`"%char then DQUOTE else c) (q r)
  end.

Definition nl : string := String LF EmptyString.

(** Rust's [str::strip_prefix]. *)
Fixpoint strip_prefix (p s : string) : option string :=
  match p, s with
  | EmptyString, _ => Some s
  | String a p', String b s' => if Ascii.eqb a b then strip_prefix p' s' else None
  | String _ _, EmptyString => None
  end.

(** Rust's [str::find] for a string pattern: the byte offset of the first
    occurrence. *)
Fixpoint find (p s : string) : option nat :=
  match strip_prefix p s with
  | Some _ => Some 0
  | None =>
      match s with
      | EmptyString => None
      | String _ s' => option_map S (find p s')
      end
  end.

(** Rust's [str::lines]: split after each ['\n'], drop that ['\n'] and a
    ['\r'] just before it; a last line without ['\n'] is kept as it is, and
    an empty last piece is not a line. *)
Definition strip_cr (l : string) : string :=
  match String.length l with
  | O => l
  | S n => if Ascii.eqb (match String.get n l with Some c => c | None => LF end) CR
           then substring 0 n l else l
  end.

Fixpoint lines_aux (cur : string) (s : string) : list string :=
  match s with
  | EmptyString => match cur with EmptyString => [] | _ => [cur] end
  | String c r =>
      if Ascii.eqb c LF then strip_cr cur :: lines_aux EmptyString r
      else lines_aux (cur ++ String c EmptyString) r
  end.

Definition lines (s : string) : list string := lines_aux EmptyString s.

Definition rev_string (s : string) : string :=
  string_of_list_ascii (rev (list_ascii_of_string s)).

End Bytes.
Import Bytes.

(** ** serde_json values and [serde_json::from_str] *)
Module Json.

(** Numbers: [JInt z] for an integer literal that serde_json keeps as an
    [i64] or [u64]; [JFloat raw] for every literal it stores as an [f64]
    (a fraction, an exponent, [-0], or an integer out of range). *)
Inductive json : Type :=
| JNull
| JBool (b : bool)
| JInt (z : Z)
| JFloat (raw : string)
| JString (s : string)
| JArray (xs : list json)
| JObject (kvs : list (string * json)).

(** Objects keep their pairs in input order; as in serde_json's map, where
    a repeated key overwrites the earlier one, a lookup finds the last. *)
Fixpoint lookup_last (k : string) (kvs : list (string * json)) : option json :=
  match kvs with
  | [] => None
  | (k', v) :: rest =>
      match lookup_last k rest with
      | Some v' => Some v'
      | None => if String.eqb k k' then Some v else None
      end
  end.

(** [Value::get] with a string key. *)
Definition get (v : json) (k : string) : option json :=
  match v with JObject kvs => lookup_last k kvs | _ => None end.

Definition get_opt (v : option json) (k : string) : option json :=
  match v with Some v => get v k | None => None end.

Definition as_str (v : json) : option string :=
  match v with JString s => Some s | _ => None end.

Definition as_array (v : json) : option (list json) :=
  match v with JArray xs => Some xs | _ => None end.

Definition i64_max : Z := (2 ^ 63 - 1)%Z.

Definition as_i64 (v : json) : option Z :=
  match v with JInt z => if Z.leb z i64_max then Some z else None | _ => None end.

Definition str_field (v : json) (k : string) : option string :=
  match get v k with Some x => as_str x | None => None end.

(** [value[k] = x] ([IndexMut]): overwrite or add the key of an object; a
    [Null] first becomes an empty object.  (The code only applies it to
    objects.) *)
Definition set_key (v : json) (k : string) (x : json) : json :=
  match v with
  | JObject kvs => JObject (filter (fun p => negb (String.eqb (fst p) k)) kvs ++ [(k, x)])
  | JNull => JObject [(k, x)]
  | _ => v
  end.

(** *** The parser *)

Definition is_json_ws (c : ascii) : bool :=
  let n := code c in (n =? 32) || (n =? 10) || (n =? 9) || (n =? 13).

Fixpoint skip_ws (s : string) : string :=
  match s with
  | String c r => if is_json_ws c then skip_ws r else s
  | EmptyString => s
  end.

Definition digit_val (c : ascii) : option nat :=
  let n := code c in if (48 <=? n) && (n <=? 57) then Some (n - 48) else None.

Definition hex_val (c : ascii) : option nat :=
  let n := code c in
  if (48 <=? n) && (n <=? 57) then Some (n - 48)
  else if (65 <=? n) && (n <=? 70) then Some (n - 55)
  else if (97 <=? n) && (n <=? 102) then Some (n - 87)
  else None.

Definition hex4 (s : string) : option (nat * string) :=
  match s with
  | String a (String b (String c (String d r))) =>
      match hex_val a, hex_val b, hex_val c, hex_val d with
      | Some a, Some b, Some c, Some d => Some (((a * 16 + b) * 16 + c) * 16 + d, r)
      | _, _, _, _ => None
      end
  | _ => None
  end.

(** UTF-8 encoding of a code point. *)
Definition utf8_encode (cp : nat) : string :=
  if cp <? 128 then String (byte cp) EmptyString
  else if cp <? 2048 then
    String (byte (192 + cp / 64)) (String (byte (128 + cp mod 64)) EmptyString)
  else if cp <? 65536 then
    String (byte (224 + cp / 4096))
      (String (byte (128 + (cp / 64) mod 64)) (String (byte (128 + cp mod 64)) EmptyString))
  else
    String (byte (240 + cp / 262144))
      (String (byte (128 + (cp / 4096) mod 64))
         (String (byte (128 + (cp / 64) mod 64)) (String (byte (128 + cp mod 64)) EmptyString))).

(** One escape after a backslash: the decoded bytes and the rest.  A
    [\u] escape of a leading surrogate must be followed by the escape of a
    trailing one; a lone surrogate is an error, as in serde_json. *)
Definition escape (s : string) : option (string * string) :=
  match s with
  | String c r =>
      let n := code c in
      if n =? 34 then Some (String DQUOTE EmptyString, r)
      else if n =? 92 then Some (String BSLASH EmptyString, r)
      else if n =? 47 then Some ("/", r)
      else if n =? 98 then Some (String (byte 8) EmptyString, r)
      else if n =? 102 then Some (String (byte 12) EmptyString, r)
      else if n =? 110 then Some (String LF EmptyString, r)
      else if n =? 114 then Some (String CR EmptyString, r)
      else if n =? 116 then Some (String (byte 9) EmptyString, r)
      else if n =? 117 then
        match hex4 r with
        | None => None
        | Some (hi, r1) =>
            if (55296 <=? hi) && (hi <? 56320) then
              match r1 with
              | String b (String u r2) =>
                  if (code b =? 92) && (code u =? 117) then
                    match hex4 r2 with
                    | Some (lo, r3) =>
                        if (56320 <=? lo) && (lo <? 57344)
                        then Some (utf8_encode (65536 + (hi - 55296) * 1024 + (lo - 56320)), r3)
                        else None
                    | None => None
                    end
                  else None
              | _ => None
              end
            else if (56320 <=? hi) && (hi <? 57344) then None
            else Some (utf8_encode hi, r1)
        end
      else None
  | EmptyString => None
  end.

(** The body of a string literal after its opening quote: the decoded
    string and the rest after the closing quote.  Raw control characters
    are refused. *)
Fixpoint pstring (fuel : nat) (s : string) : option (string * string) :=
  match fuel with
  | O => None
  | S f =>
      match s with
      | EmptyString => None
      | String c r =>
          let n := code c in
          if n =? 34 then Some (EmptyString, r)
          else if n =? 92 then
            match escape r with
            | Some (e, r1) =>
                match pstring f r1 with
                | Some (x, r2) => Some (e ++ x, r2)
                | None => None
                end
            | None => None
            end
          else if n <? 32 then None
          else
            match pstring f r with
            | Some (x, r2) => Some (String c x, r2)
            | None => None
            end
      end
  end.

(** Digits of a number: the digit characters and the rest. *)
Fixpoint digits (s : string) : string * string :=
  match s with
  | String c r =>
      match digit_val c with
      | Some _ => let (d, r') := digits r in (String c d, r')
      | None => (EmptyString, s)
      end
  | EmptyString => (EmptyString, EmptyString)
  end.

Fixpoint digits_value (acc : Z) (d : string) : Z :=
  match d with
  | String c r =>
      digits_value (acc * 10 + Z.of_nat (match digit_val c with Some v => v | None => 0 end))%Z r
  | EmptyString => acc
  end.

Definition u64_max : Z := (2 ^ 64 - 1)%Z.

(** A number literal: an optional [-], then [0] or a non-zero digit and
    digits (a leading zero followed by a digit is an error), then an
    optional fraction and exponent. *)
Definition pnumber (s : string) : option (json * string) :=
  let '(neg, s1) := match s with
                    | String c r => if code c =? 45 then (true, r) else (false, s)
                    | EmptyString => (false, s)
                    end in
  let '(int, s2) := digits s1 in
  match int with
  | EmptyString => None
  | String c0 rest_int =>
      if (code c0 =? 48) && negb (String.eqb rest_int EmptyString) then None
      else
        let '(frac_ok, has_frac, s3) :=
          match s2 with
          | String c r =>
              if code c =? 46 then
                let '(fd, r') := digits r in
                (negb (String.eqb fd EmptyString), true, r')
              else (true, false, s2)
          | EmptyString => (true, false, s2)
          end in
        let '(exp_ok, has_exp, s4) :=
          match s3 with
          | String c r =>
              if (code c =? 101) || (code c =? 69) then
                let r0 := match r with
                          | String c' r' => if (code c' =? 43) || (code c' =? 45) then r' else r
                          | EmptyString => r
                          end in
                let '(ed, r') := digits r0 in
                (negb (String.eqb ed EmptyString), true, r')
              else (true, false, s3)
          | EmptyString => (true, false, s3)
          end in
        if negb (frac_ok && exp_ok) then None
        else
          let raw := substring 0 (String.length s - String.length s4) s in
          let mag := digits_value 0 int in
          if has_frac || has_exp then Some (JFloat raw, s4)
          else if neg then
            if Z.eqb mag 0 || Z.ltb (2 ^ 63)%Z mag then Some (JFloat raw, s4)
            else Some (JInt (- mag), s4)
          else if Z.ltb u64_max mag then Some (JFloat raw, s4)
          else Some (JInt mag, s4)
  end.

Definition expect (lit : string) (s : string) (v : json) : option (json * string) :=
  match strip_prefix lit s with Some r => Some (v, r) | None => None end.

(** A value after optional whitespace.  [depth] is serde_json's
    [remaining_depth]: entering an array or object decrements it, and
    reaching zero is an error. *)
Fixpoint pvalue (fuel depth : nat) (s0 : string) : option (json * string) :=
  match fuel with
  | O => None
  | S f =>
      let s := skip_ws s0 in
      match s with
      | EmptyString => None
      | String c r =>
          let n := code c in
          if n =? 110 then expect "ull" r JNull
          else if n =? 116 then expect "rue" r (JBool true)
          else if n =? 102 then expect "alse" r (JBool false)
          else if n =? 34 then
            match pstring (String.length r) r with
            | Some (x, r') => Some (JString x, r')
            | None => None
            end
          else if (n =? 45) || (match digit_val c with Some _ => true | None => false end) then
            pnumber s
          else if n =? 91 then
            let d := pred depth in
            if d =? 0 then None else
            match skip_ws r with
            | String c' r' =>
                if code c' =? 93 then Some (JArray [], r') else
                (fix elems (g : nat) (acc : list json) (t : string) : option (json * string) :=
                   match g with
                   | O => None
                   | S g' =>
                       match pvalue f d t with
                       | None => None
                       | Some (v, t1) =>
                           match skip_ws t1 with
                           | String c2 t2 =>
                               if code c2 =? 44 then elems g' (v :: acc) t2
                               else if code c2 =? 93 then Some (JArray (rev (v :: acc)), t2)
                               else None
                           | EmptyString => None
                           end
                       end
                   end) f [] r
            | EmptyString => None
            end
          else if n =? 123 then
            let d := pred depth in
            if d =? 0 then None else
            match skip_ws r with
            | String c' r' =>
                if code c' =? 125 then Some (JObject [], r') else
                (fix members (g : nat) (acc : list (string * json)) (t : string)
                   : option (json * string) :=
                   match g with
                   | O => None
                   | S g' =>
                       match skip_ws t with
                       | String cq t0 =>
                           if negb (code cq =? 34) then None else
                           match pstring (String.length t0) t0 with
                           | None => None
                           | Some (k, t1) =>
                               match skip_ws t1 with
                               | String cc t2 =>
                                   if negb (code cc =? 58) then None else
                                   match pvalue f d t2 with
                                   | None => None
                                   | Some (v, t3) =>
                                       match skip_ws t3 with
                                       | String c2 t4 =>
                                           if code c2 =? 44 then members g' ((k, v) :: acc) t4
                                           else if code c2 =? 125
                                           then Some (JObject (rev ((k, v) :: acc)), t4)
                                           else None
                                       | EmptyString => None
                                       end
                                   end
                               | EmptyString => None
                               end
                           end
                       | EmptyString => None
                       end
                   end) f [] r
            | EmptyString => None
            end
          else None
      end
  end.

(** [serde_json::from_str::<Value>]: one value, then only whitespace. *)
Definition from_str (s : string) : option json :=
  match pvalue (S (String.length s)) 128 s with
  | Some (v, r) => match skip_ws r with EmptyString => Some v | _ => None end
  | None => None
  end.

End Json.
Import Json.



(** ** [parsers.rs]: the Anthropic SSE parser *)
Module Parsers.

Record ToolCall := { tc_id : string; tc_name : string; tc_input : json }.

Record Usage := {
  input_tokens : option Z;
  output_tokens : option Z;
  cache_read_tokens : option Z;
  cache_creation_tokens : option Z }.

(** [struct ParsedResponse], field by field. *)
Record ParsedResponse := {
  thinking : option string;
  text : option string;
  tool_calls : list ToolCall;
  usage : option Usage;
  raw : string;
  streaming : bool;
  metadata : json }.

(** The mutable locals of [parse_sse_events]. *)
Record SseState := {
  st_thinking : string;
  st_text : string;
  st_tool_calls : list ToolCall;
  st_usage : option Usage;
  st_metadata : json;
  current_tool_id : option string;
  current_tool_name : option string;
  current_tool_input : string }.

Definition init_state : SseState :=
  {| st_thinking := ""; st_text := ""; st_tool_calls := []; st_usage := None;
     st_metadata := JObject []; current_tool_id := None; current_tool_name := None;
     current_tool_input := "" |}.

Definition opt_bind {A B} (o : option A) (f : A -> option B) : option B :=
  match o with Some a => f a | None => None end.

Definition usage_of (u : json) : Usage :=
  {| input_tokens := opt_bind (get u "input_tokens") as_i64;
     output_tokens := opt_bind (get u "output_tokens") as_i64;
     cache_read_tokens := opt_bind (get u "cache_read_input_tokens") as_i64;
     cache_creation_tokens := opt_bind (get u "cache_creation_input_tokens") as_i64 |}.

(** The body of the [match event.get("type")] of one decoded record. *)
Definition step_event (st : SseState) (event : json) : SseState :=
  match opt_bind (get event "type") as_str with
  | Some "message_start" =>
      match get event "message" with
      | Some msg =>
          let m1 := match get msg "model" with
                    | Some model => set_key st.(st_metadata) "model" model
                    | None => st.(st_metadata) end in
          let m2 := match get msg "id" with
                    | Some id => set_key m1 "message_id" id
                    | None => m1 end in
          {| st_thinking := st.(st_thinking); st_text := st.(st_text);
             st_tool_calls := st.(st_tool_calls); st_usage := st.(st_usage);
             st_metadata := m2; current_tool_id := st.(current_tool_id);
             current_tool_name := st.(current_tool_name);
             current_tool_input := st.(current_tool_input) |}
      | None => st
      end
  | Some "content_block_start" =>
      match get event "content_block" with
      | Some block =>
          if match opt_bind (get block "type") as_str with
             | Some "tool_use" => true | _ => false end
          then {| st_thinking := st.(st_thinking); st_text := st.(st_text);
                  st_tool_calls := st.(st_tool_calls); st_usage := st.(st_usage);
                  st_metadata := st.(st_metadata);
                  current_tool_id := opt_bind (get block "id") as_str;
                  current_tool_name := opt_bind (get block "name") as_str;
                  current_tool_input := "" |}
          else st
      | None => st
      end
  | Some "content_block_delta" =>
      match get event "delta" with
      | Some delta =>
          match opt_bind (get delta "type") as_str with
          | Some "thinking_delta" =>
              match opt_bind (get delta "thinking") as_str with
              | Some t =>
                  {| st_thinking := st.(st_thinking) ++ t; st_text := st.(st_text);
                     st_tool_calls := st.(st_tool_calls); st_usage := st.(st_usage);
                     st_metadata := st.(st_metadata); current_tool_id := st.(current_tool_id);
                     current_tool_name := st.(current_tool_name);
                     current_tool_input := st.(current_tool_input) |}
              | None => st
              end
          | Some "text_delta" =>
              match opt_bind (get delta "text") as_str with
              | Some t =>
                  {| st_thinking := st.(st_thinking); st_text := st.(st_text) ++ t;
                     st_tool_calls := st.(st_tool_calls); st_usage := st.(st_usage);
                     st_metadata := st.(st_metadata); current_tool_id := st.(current_tool_id);
                     current_tool_name := st.(current_tool_name);
                     current_tool_input := st.(current_tool_input) |}
              | None => st
              end
          | Some "input_json_delta" =>
              match opt_bind (get delta "partial_json") as_str with
              | Some j =>
                  {| st_thinking := st.(st_thinking); st_text := st.(st_text);
                     st_tool_calls := st.(st_tool_calls); st_usage := st.(st_usage);
                     st_metadata := st.(st_metadata); current_tool_id := st.(current_tool_id);
                     current_tool_name := st.(current_tool_name);
                     current_tool_input := st.(current_tool_input) ++ j |}
              | None => st
              end
          | _ => st
          end
      | None => st
      end
  | Some "content_block_stop" =>
      (* both [take()]s run before the pattern is matched *)
      match st.(current_tool_id), st.(current_tool_name) with
      | Some id, Some name =>
          let input := match from_str st.(current_tool_input) with
                       | Some v => v | None => JObject [] end in
          {| st_thinking := st.(st_thinking); st_text := st.(st_text);
             st_tool_calls := st.(st_tool_calls) ++ [{| tc_id := id; tc_name := name; tc_input := input |}];
             st_usage := st.(st_usage); st_metadata := st.(st_metadata);
             current_tool_id := None; current_tool_name := None; current_tool_input := "" |}
      | _, _ =>
          {| st_thinking := st.(st_thinking); st_text := st.(st_text);
             st_tool_calls := st.(st_tool_calls); st_usage := st.(st_usage);
             st_metadata := st.(st_metadata); current_tool_id := None; current_tool_name := None;
             current_tool_input := st.(current_tool_input) |}
      end
  | Some "message_delta" =>
      let u := match get event "usage" with
               | Some u => Some (usage_of u) | None => st.(st_usage) end in
      let m := match get event "delta" with
               | Some delta =>
                   match get delta "stop_reason" with
                   | Some reason => set_key st.(st_metadata) "stop_reason" reason
                   | None => st.(st_metadata) end
               | None => st.(st_metadata) end in
      {| st_thinking := st.(st_thinking); st_text := st.(st_text);
         st_tool_calls := st.(st_tool_calls); st_usage := u; st_metadata := m;
         current_tool_id := st.(current_tool_id); current_tool_name := st.(current_tool_name);
         current_tool_input := st.(current_tool_input) |}
  | _ => st
  end.

(** One line of the input: only [data: ] lines whose rest decodes as JSON
    count. *)
Definition step_line (st : SseState) (line : string) : SseState :=
  match strip_prefix "data: " line with
  | Some data =>
      match from_str data with
      | Some event => step_event st event
      | None => st
      end
  | None => st
  end.

Definition none_if_empty (s : string) : option string :=
  match s with EmptyString => None | _ => Some s end.

(** [AnthropicParser::parse_sse_events], which [parse_streaming] calls. *)
Definition parse_sse_events (raw_in : string) : ParsedResponse :=
  let st := fold_left step_line (lines raw_in) init_state in
  {| thinking := none_if_empty st.(st_thinking);
     text := none_if_empty st.(st_text);
     tool_calls := st.(st_tool_calls);
     usage := st.(st_usage);
     raw := raw_in;
     streaming := true;
     metadata := st.(st_metadata) |}.

Definition parse_streaming (raw_in : string) : ParsedResponse := parse_sse_events raw_in.

(** The derived [Serialize] of the structs: one key per field, in
    declaration order. *)
Definition opt_json {A} (f : A -> json) (o : option A) : json :=
  match o with Some a => f a | None => JNull end.

Definition Usage_to_json (u : Usage) : json :=
  JObject [("input_tokens", opt_json JInt u.(input_tokens));
           ("output_tokens", opt_json JInt u.(output_tokens));
           ("cache_read_tokens", opt_json JInt u.(cache_read_tokens));
           ("cache_creation_tokens", opt_json JInt u.(cache_creation_tokens))].

Definition ToolCall_to_json (t : ToolCall) : json :=
  JObject [("id", JString t.(tc_id)); ("name", JString t.(tc_name)); ("input", t.(tc_input))].

Definition ParsedResponse_to_json (p : ParsedResponse) : json :=
  JObject [("thinking", opt_json JString p.(thinking));
           ("text", opt_json JString p.(text));
           ("tool_calls", JArray (map ToolCall_to_json p.(tool_calls)));
           ("usage", opt_json Usage_to_json p.(usage));
           ("raw", JString p.(raw));
           ("streaming", JBool p.(streaming));
           ("metadata", p.(metadata))].

End Parsers.
Import Parsers.

(** Scenario S1 of the spec, lines separated by blank lines. *)
Definition s1_input : string :=
  q "data: {`type`:`message_start`,`message`:{`id`:`m`,`model`:`c`}}" ++ nl ++ nl ++
  q "data: {`type`:`content_block_delta`,`delta`:{`type`:`text_delta`,`text`:`Hello`}}" ++ nl ++ nl ++
  q "data: {`type`:`content_block_delta`,`delta`:{`type`:`text_delta`,`text`:` world`}}" ++ nl ++ nl ++
  q "data: {`type`:`message_stop`}".



(** ** [proxy.rs] *)
Module Proxy.

(** *** [String::from_utf8_lossy]

    Valid UTF-8 sequences are copied; each maximal prefix of a valid
    sequence that cannot be completed (at least one byte) becomes one
    U+FFFD, as Rust's [Utf8Chunks] does. *)
Definition replacement : string := utf8_encode 65533.

(** For a leading byte: the length of its sequence and the range of the
    second byte. *)
Definition utf8_lead (b : nat) : option (nat * nat * nat) :=
  if b <? 128 then Some (1, 0, 0)
  else if (194 <=? b) && (b <=? 223) then Some (2, 128, 191)
  else if b =? 224 then Some (3, 160, 191)
  else if ((225 <=? b) && (b <=? 236)) || ((238 <=? b) && (b <=? 239)) then Some (3, 128, 191)
  else if b =? 237 then Some (3, 128, 159)
  else if b =? 240 then Some (4, 144, 191)
  else if (241 <=? b) && (b <=? 243) then Some (4, 128, 191)
  else if b =? 244 then Some (4, 128, 143)
  else None.

Definition is_cont (c : ascii) : bool := (128 <=? code c) && (code c <=? 191).

(** The number of continuation bytes, at most [k], at the start of [s]. *)
Fixpoint conts (k : nat) (s : string) : nat :=
  match k, s with
  | S k', String c r => if is_cont c then S (conts k' r) else 0
  | _, _ => 0
  end.

Fixpoint lossy (fuel : nat) (s : string) : string :=
  match fuel with
  | O => EmptyString
  | S f =>
      match s with
      | EmptyString => EmptyString
      | String b r =>
          match utf8_lead (code b) with
          | None => replacement ++ lossy f r
          | Some (1, _, _) => String b (lossy f r)
          | Some (n, lo, hi) =>
              match r with
              | String b2 r2 =>
                  if (lo <=? code b2) && (code b2 <=? hi) then
                    let m := conts (n - 2) r2 in
                    if m =? n - 2 then substring 0 n s ++ lossy f (substring n (String.length s) s)
                    else replacement ++ lossy f (substring (2 + m) (String.length s) s)
                  else replacement ++ lossy f r
              | EmptyString => replacement
              end
          end
      end
  end.

Definition from_utf8_lossy (s : string) : string := lossy (String.length s) s.





(** *** The streaming mirror task of [handle_streaming_response]

    The upstream body is the sequence of results of [stream.next()]; the
    downstream side is described by how many chunks the receiver accepts
    before it is dropped ([None]: it never is).  From then on every
    [tx.send] fails. *)
Inductive chunk_result := ChunkOk (chunk : string) | ChunkErr.

Inductive loop_exit := Eof | SendFailed | ReadFailed.

Definition send_ok (accepts : option nat) (sent : nat) : bool :=
  match accepts with None => true | Some n => sent <? n end.

(** The [while let] loop: the chunks pushed to [response_chunks] and how
    the loop ended.  A chunk is pushed before it is sent; a failed send and
    a read error both [break]. *)
Fixpoint mirror_loop (accepts : option nat) (sent : nat) (stream : list chunk_result)
    (response_chunks : list string) : list string * loop_exit :=
  match stream with
  | [] => (response_chunks, Eof)
  | ChunkOk chunk :: rest =>
      let acc := (response_chunks ++ [chunk])%list in
      if send_ok accepts sent then mirror_loop accepts (S sent) rest acc
      else (acc, SendFailed)
  | ChunkErr :: _ => (response_chunks, ReadFailed)
  end.

(** The event the task stores and broadcasts: [Event::response] with its
    [data] ([id], [timestamp] and the proxy session are fresh values the
    claims do not look at). *)
Record ResponseEvent := { event_type : string; data : json }.

Definition streaming_response_event (parsed : ParsedResponse) : ResponseEvent :=
  {| event_type := "response";
     data := JObject [("streaming", JBool true); ("parsed", ParsedResponse_to_json parsed)] |}.

(** The whole task: after the loop, nothing for telemetry; otherwise the
    accumulated bytes are decoded, parsed and emitted. *)
Definition mirror_task (is_telemetry : bool) (accepts : option nat) (stream : list chunk_result)
    : option ResponseEvent :=
  let (response_chunks, _) := mirror_loop accepts 0 stream [] in
  if is_telemetry then None
  else
    let full_response := String.concat "" response_chunks in
    let response_text := from_utf8_lossy full_response in
    let parsed := parse_streaming response_text in
    Some (streaming_response_event parsed).

(** The event built from a given list of chunks. *)
Definition event_of_chunks (chunks : list string) : ResponseEvent :=
  streaming_response_event (parse_streaming (from_utf8_lossy (String.concat "" chunks))).

End Proxy.
Import Proxy.

(** *** Request metadata ([extract_working_directory],
    [extract_claude_session_id]) *)
Module Extract.

(** [Iterator::find_map]. *)
Fixpoint find_map {A B} (f : A -> option B) (xs : list A) : option B :=
  match xs with
  | [] => None
  | x :: rest => match f x with Some b => Some b | None => find_map f rest end
  end.

(** The characters of Rust's [char::is_whitespace], as UTF-8 byte
    strings; [str::trim] strips them from both ends. *)
Definition whitespace_code_points : list nat :=
  [9; 10; 11; 12; 13; 32; 133; 160; 5760; 8192; 8193; 8194; 8195; 8196; 8197; 8198;
   8199; 8200; 8201; 8202; 8232; 8233; 8239; 8287; 12288].

Definition strip_one_of (ps : list string) (s : string) : option string :=
  find_map (fun p => match p with EmptyString => None | _ => strip_prefix p s end) ps.

Fixpoint strip_all (fuel : nat) (ps : list string) (s : string) : string :=
  match fuel with
  | O => s
  | S f => match strip_one_of ps s with Some r => strip_all f ps r | None => s end
  end.

Definition str_trim (s : string) : string :=
  let ws := map utf8_encode whitespace_code_points in
  let s1 := strip_all (String.length s) ws s in
  rev_string (strip_all (String.length s1) (map rev_string ws) (rev_string s1)).

(** The closure [search_text]: the first occurrence of the marker only;
    the rest of its line, trimmed; an empty value gives [None]. *)
Definition marker : string := "Working directory:".

Definition search_text (text : string) : option string :=
  match find marker text with
  | Some start =>
      let rest := substring (start + 18) (String.length text) text in
      let end_ := match find nl rest with Some e => e | None => String.length rest end in
      let dir := str_trim (substring 0 end_ rest) in
      if String.eqb dir "" then None else Some dir
  | None => None
  end.

Definition text_of (field : string) (v : json) : option string := opt_bind (get v field) as_str.

Definition extract_working_directory (request_json : json) : option string :=
  let from_system :=
    match get request_json "system" with
    | Some system =>
        match opt_bind (as_str system) search_text with
        | Some dir => Some dir
        | None =>
            match as_array system with
            | Some blocks => find_map (fun block => opt_bind (text_of "text" block) search_text) blocks
            | None => None
            end
        end
    | None => None
    end in
  match from_system with
  | Some dir => Some dir
  | None =>
      match opt_bind (get request_json "messages") as_array with
      | Some messages => find_map (fun msg => opt_bind (text_of "content" msg) search_text) messages
      | None => None
      end
  end.

(** The offset of the last occurrence of a non-empty pattern. *)
Fixpoint rfind (p s : string) : option nat :=
  match s with
  | EmptyString => None
  | String _ r =>
      match rfind p r with
      | Some i => Some (S i)
      | None => match strip_prefix p s with Some _ => Some 0 | None => None end
      end
  end.

(** [str::rsplit_once]. *)
Definition rsplit_once (p s : string) : option (string * string) :=
  match rfind p s with
  | Some i => Some (substring 0 i s, substring (i + String.length p) (String.length s) s)
  | None => None
  end.

Definition extract_session_id_from_metadata_user_id (request_json : json) : option string :=
  match opt_bind (get_opt (get request_json "metadata") "user_id") as_str with
  | Some user_id =>
      match rsplit_once "_session_" user_id with
      | Some (_, session) => if String.eqb session "" then None else Some session
      | None => None
      end
  | None => None
  end.

(** The closure given to [find_map]: [event.event_data.session_id] when it
    is a string. *)
Definition event_session_id (event : json) : option string :=
  opt_bind (get_opt (get event "event_data") "session_id") as_str.

Definition extract_session_id_from_events (request_json : json) : option string :=
  match opt_bind (get request_json "events") as_array with
  | Some events => find_map event_session_id events
  | None => None
  end.

Definition extract_claude_session_id (request_json : json) : option string :=
  match extract_session_id_from_metadata_user_id request_json with
  | Some s => Some s
  | None => extract_session_id_from_events request_json
  end.

End Extract.
Import Extract.

(** ** [agent.rs]: the agent store over the [agents] table

    The table is the list of its rows in insertion order; a query with
    [fetch_optional] returns the first matching row.  Timestamps are
    nanoseconds since the epoch ([DateTime<Utc>] survives its RFC 3339
    round trip through the table unchanged); [Utc::now()], [Uuid::new_v4()]
    and the random draws of [generate_name] are inputs of the operations. *)
Module AgentStore.

Inductive AgentStatus := Active | Inactive.

Record Agent := {
  id : Z;
  name : string;
  session_id : string;
  working_directory : option string;
  created_at : Z;
  last_seen_at : Z;
  status : AgentStatus;
  topic : option string }.

Definition Table := list Agent.

(** A failed statement; the model raises only the [UNIQUE] and
    [PRIMARY KEY] violations of [INSERT]. *)
Inductive DbError := ConstraintViolation.

Inductive Result (A : Type) := Ok (a : A) | Err (e : DbError).
Arguments Ok {A} a.
Arguments Err {A} e.

Definition ADJECTIVES : list string :=
  ["swift"; "bright"; "calm"; "bold"; "keen"; "warm"; "cool"; "wild"; "sage"; "fair"; "blue";
   "red"; "green"; "gold"; "silver"; "quiet"; "quick"; "brave"; "wise"; "kind"].

Definition NOUNS : list string :=
  ["fox"; "owl"; "wolf"; "bear"; "hawk"; "deer"; "lynx"; "crow"; "dove"; "swan"; "oak"; "pine";
   "fern"; "moss"; "sage"; "star"; "moon"; "wind"; "rain"; "snow"].

(** [generate_name] from the 64-bit hash it draws. *)
Definition generate_name (hash : N) : string :=
  let adj_idx := N.to_nat (N.modulo hash 20) in
  let noun_idx := N.to_nat (N.modulo (N.shiftr hash 32) 20) in
  nth adj_idx ADJECTIVES "" ++ "-" ++ nth noun_idx NOUNS "".

Fixpoint find_first (p : Agent -> bool) (t : Table) : option Agent :=
  match t with
  | [] => None
  | a :: rest => if p a then Some a else find_first p rest
  end.

Definition find_by_session_id (t : Table) (sid : string) : option Agent :=
  find_first (fun a => String.eqb a.(session_id) sid) t.

Definition find_by_name (t : Table) (n : string) : option Agent :=
  find_first (fun a => String.eqb a.(name) n) t.

Definition is_some {A} (o : option A) : bool := match o with Some _ => true | None => false end.

(** [INSERT INTO agents ...]: refused when the name or the id is taken. *)
Definition insert (t : Table) (a : Agent) : Result Table :=
  if is_some (find_by_name t a.(name)) || existsb (fun b => Z.eqb b.(id) a.(id)) t
  then Err ConstraintViolation
  else Ok (t ++ [a])%list.

Definition with_seen (a : Agent) (now : Z) (st : AgentStatus) : Agent :=
  {| id := a.(id); name := a.(name); session_id := a.(session_id);
     working_directory := a.(working_directory); created_at := a.(created_at);
     last_seen_at := now; status := st; topic := a.(topic) |}.

Definition with_working_directory (a : Agent) (wd : option string) : Agent :=
  {| id := a.(id); name := a.(name); session_id := a.(session_id);
     working_directory := wd; created_at := a.(created_at);
     last_seen_at := a.(last_seen_at); status := a.(status); topic := a.(topic) |}.

Definition with_topic (a : Agent) (tp : option string) : Agent :=
  {| id := a.(id); name := a.(name); session_id := a.(session_id);
     working_directory := a.(working_directory); created_at := a.(created_at);
     last_seen_at := a.(last_seen_at); status := a.(status); topic := tp |}.

(** [UPDATE agents SET last_seen_at = ?, status = ? WHERE id = ?] *)
Definition update_last_seen (t : Table) (aid : Z) (st : AgentStatus) (now : Z) : Table :=
  map (fun a => if Z.eqb a.(id) aid then with_seen a now st else a) t.

(** [UPDATE agents SET working_directory = ? WHERE id = ?] *)
Definition update_working_directory (t : Table) (aid : Z) (wd : option string) : Table :=
  map (fun a => if Z.eqb a.(id) aid then with_working_directory a wd else a) t.

(** [UPDATE agents SET status = ?, last_seen_at = ? WHERE session_id = ?] *)
Definition mark_inactive (t : Table) (sid : string) (now : Z) : Table :=
  map (fun a => if String.eqb a.(session_id) sid then with_seen a now Inactive else a) t.

(** [UPDATE agents SET topic = ? WHERE id = ?] *)
Definition update_topic (t : Table) (aid : Z) (tp : string) : Table :=
  map (fun a => if Z.eqb a.(id) aid then with_topic a (Some tp) else a) t.

(** The collision loop: regenerate while the name is taken, at most ten
    times; [draw i] is the hash of the [i]-th call of [generate_name]. *)
Fixpoint pick_name (t : Table) (draw : nat -> N) (fuel attempts : nat) (nm : string) : string :=
  match fuel with
  | O => nm
  | S f =>
      if is_some (find_by_name t nm) && (attempts <? 10)
      then pick_name t draw f (S attempts) (generate_name (draw (S attempts)))
      else nm
  end.

(** [AgentStore::get_or_create_agent]: the result and the table after. *)
Definition get_or_create_agent (now new_id : Z) (draw : nat -> N) (t : Table)
    (sid : string) (wd : option string) : Result Agent * Table :=
  match find_by_session_id t sid with
  | Some agent =>
      let t1 := update_last_seen t agent.(id) Active now in
      if is_some wd && negb (is_some agent.(working_directory)) then
        (Ok (with_working_directory agent wd), update_working_directory t1 agent.(id) wd)
      else (Ok agent, t1)
  | None =>
      let nm := pick_name t draw 10 0 (generate_name (draw 0)) in
      let agent := {| id := new_id; name := nm; session_id := sid; working_directory := wd;
                      created_at := now; last_seen_at := now; status := Active; topic := None |} in
      match insert t agent with
      | Ok t' => (Ok agent, t')
      | Err e => (Err e, t)
      end
  end.

(** [ORDER BY last_seen_at DESC]: a stable insertion sort (SQLite leaves
    the order of equal keys unspecified). *)
Fixpoint insert_desc (a : Agent) (t : Table) : Table :=
  match t with
  | [] => [a]
  | b :: rest => if Z.ltb b.(last_seen_at) a.(last_seen_at) then a :: t else b :: insert_desc a rest
  end.

Definition list_all (t : Table) : Table := fold_right insert_desc [] t.

(** The uniqueness [get_or_create_agent] keeps: names ([UNIQUE] column),
    ids (primary key) and session ids (only by looking the session up
    before inserting). *)
Definition unique_rows (t : Table) : Prop :=
  NoDup (map name t) /\ NoDup (map session_id t) /\ NoDup (map id t).

End AgentStore.

(** ** [cli.rs]: the two ways agents are listed *)
Module Cli.
Import AgentStore.

(** [agents_handler] behind [GET /api/agents]: the rows of [list_all] as
    they are (the model's [list_all] does not fail; on failure the handler
    answers with an empty array). *)
Definition agents_handler (t : Table) : list Agent := list_all t.

Definition minute : Z := 60 * 1000000000.

(** The status printed by the [agents] command ([show_agents]). *)
Definition show_agents_status (now : Z) (a : Agent) : AgentStatus :=
  if Z.ltb (5 * minute) (now - a.(last_seen_at)) then Inactive else Active.

End Cli.

(** ** The request phase of [proxy_handler] *)
Module Request.
Import AgentStore.

Definition contains (p s : string) : bool := is_some (find p s).

Record RequestOutcome := {
  agent_name : option string;
  is_telemetry : bool;
  agents_after : Table }.

(** From the decoded body ([unwrap_or_default] turns an undecodable body
    into [Null]) up to the telemetry test: the agent tracking, whose store
    failure is logged and dropped. *)
Definition request_phase (now new_id : Z) (draw : nat -> N) (t : Table)
    (path : string) (request_json : json) : RequestOutcome :=
  let claude_session_id := extract_claude_session_id request_json in
  let working_dir := extract_working_directory request_json in
  let '(agent_name, t') :=
    match claude_session_id with
    | Some sid =>
        match get_or_create_agent now new_id draw t sid working_dir with
        | (Ok agent, t') => (Some agent.(name), t')
        | (Err _, t') => (None, t')
        end
    | None => (None, t)
    end in
  {| agent_name := agent_name; is_telemetry := contains "event_logging" path; agents_after := t' |}.

End Request.

(** ** [sse.rs]: the subscriber endpoint over the broadcast channel *)
Module Sse.

(** [event::ObservabilityEvent], as far as the endpoint reads it. *)
Record ObservabilityEvent := { seq : option Z; agent : option string; payload : json }.

Inductive SSeMessageEnvelope :=
| EnvObservabilityEvent (event : ObservabilityEvent)
| ResyncRequired (events_dropped : Z) (latest_seq : Z).

(** A tokio broadcast channel: every value ever sent, by position, and the
    ring buffer's length, [channel(100)] rounded up to a power of two.  A
    receiver is the position of the next value it reads. *)
Record Channel := { buffer_len : nat; sent : list ObservabilityEvent }.

Definition channel (capacity : nat) : Channel :=
  {| buffer_len := 2 ^ Nat.log2_up capacity; sent := [] |}.

Definition send (ch : Channel) (e : ObservabilityEvent) : Channel :=
  {| buffer_len := ch.(buffer_len); sent := (ch.(sent) ++ [e])%list |}.

Inductive RecvResult := RecvOk (e : ObservabilityEvent) | Lagged (n : nat) | Pending.

(** [Receiver::recv]: a receiver whose next value has been overwritten
    skips to the oldest value still buffered and reports how many it
    missed. *)
Definition recv (ch : Channel) (next : nat) : RecvResult * nat :=
  let tail := length ch.(sent) in
  if tail <=? next then (Pending, next)
  else if next + ch.(buffer_len) <? tail then
    (Lagged (tail - ch.(buffer_len) - next), tail - ch.(buffer_len))
  else (match nth_error ch.(sent) next with Some e => RecvOk e | None => Pending end, S next).

(** One turn of the [sse_handler] loop: the envelope yielded, if any, and
    the receiver's new position. *)
Definition sse_step (agent_filter : option string) (ch : Channel) (next : nat)
    : option SSeMessageEnvelope * nat :=
  match recv ch next with
  | (RecvOk event, next') =>
      match agent_filter with
      | Some filter =>
          match event.(agent) with
          | Some a => if String.eqb a filter then (Some (EnvObservabilityEvent event), next')
                      else (None, next')
          | None => (None, next')
          end
      | None => (Some (EnvObservabilityEvent event), next')
      end
  | (Lagged n, next') => (Some (ResyncRequired (Z.of_nat n) 0), next')
  | (Pending, next') => (None, next')
  end.

End Sse.

(** ** [parsers.rs]: the whole-document parser and the request helpers *)
Module JsonParse.

(** [filter_map] over a list. *)
Fixpoint filter_map {A B} (f : A -> option B) (xs : list A) : list B :=
  match xs with
  | [] => []
  | x :: rest => match f x with Some b => b :: filter_map f rest | None => filter_map f rest end
  end.

Definition type_of (v : json) : option string := opt_bind (get v "type") as_str.

Section WithSerializer.
(** [Value::to_string], used only to fill [raw]; no property below
    depends on it. *)
Variable json_to_string : json -> string.

(** One iteration of the loop over [content] in [parse_json]: a later
    [thinking] or [text] block overwrites the earlier one. *)
Definition parse_json_block (acc : option string * option string * list ToolCall) (block : json)
    : option string * option string * list ToolCall :=
  let '(thinking, text, tool_calls) := acc in
  match type_of block with
  | Some ty =>
      if String.eqb ty "thinking" then (str_field block "thinking", text, tool_calls)
      else if String.eqb ty "text" then (thinking, str_field block "text", tool_calls)
      else if String.eqb ty "tool_use" then
        match str_field block "id", str_field block "name" with
        | Some id, Some name =>
            (thinking, text,
             (tool_calls ++ [{| tc_id := id; tc_name := name;
                                tc_input := match get block "input" with Some v => v | None => JObject [] end |}])%list)
        | _, _ => acc
        end
      else acc
  | None => acc
  end.

(** [AnthropicParser::parse_json]. *)
Definition parse_json (j : json) : ParsedResponse :=
  let '(thinking, text, tool_calls) :=
    match opt_bind (get j "content") as_array with
    | Some content => fold_left parse_json_block content (None, None, [])
    | None => (None, None, [])
    end in
  let usage := option_map usage_of (get j "usage") in
  let m1 := match get j "model" with Some model => set_key (JObject []) "model" model | None => JObject [] end in
  let m2 := match get j "id" with Some id => set_key m1 "message_id" id | None => m1 end in
  let m3 := match get j "stop_reason" with Some r => set_key m2 "stop_reason" r | None => m2 end in
  {| thinking := thinking; text := text; tool_calls := tool_calls; usage := usage;
     raw := json_to_string j; streaming := false; metadata := m3 |}.

End WithSerializer.

(** [extract_content_text]: a string as it is; for an array, the string
    [text] of the blocks of type [text], joined with newlines, or nothing
    when there is none. *)
Definition block_text (block : json) : option string :=
  match type_of block with
  | Some ty => if String.eqb ty "text" then str_field block "text" else None
  | None => None
  end.

Definition extract_content_text (content : json) : option string :=
  match content with
  | JString s => Some s
  | JArray blocks =>
      match filter_map block_text blocks with
      | [] => None
      | texts => Some (String.concat nl texts)
      end
  | _ => None
  end.

Definition is_user (m : json) : bool :=
  match opt_bind (get m "role") as_str with Some r => String.eqb r "user" | None => false end.

(** [extract_user_message_text]: the last message with role [user]. *)
Definition extract_user_message_text (request_json : json) : option string :=
  match opt_bind (get request_json "messages") as_array with
  | Some messages =>
      match List.find is_user (rev messages) with
      | Some user_msg => opt_bind (get user_msg "content") extract_content_text
      | None => None
      end
  | None => None
  end.

End JsonParse.
Import JsonParse.

(** ** [storage.rs]: the [events] table *)
Module EventStore.

Inductive EventType := Request | Response.

(** A row: [seq] is the [INTEGER PRIMARY KEY AUTOINCREMENT]. *)
Record Row := {
  seq : Z;
  row_id : Z;
  row_session_id : Z;
  row_timestamp : Z;
  row_event_type : EventType;
  row_data : json }.

(** The rows in insertion order, and the largest [seq] ever handed out
    (SQLite's [sqlite_sequence] entry of the table). *)
Record Table := { rows : list Row; sqlite_sequence : Z }.












End EventStore.

(** ** [truncate_path_for_display] in [cli.rs] *)
Module Display.

(** [str::is_char_boundary]. *)
Definition is_char_boundary (s : string) (i : nat) : bool :=
  (i =? 0) || (i =? String.length s)
  || match String.get i s with Some c => negb (is_cont c) | None => false end.

(** [None] is the panic of slicing [&path[..]] inside a character. *)
Definition truncate_path_for_display (path : string) (max_len : nat) : option string :=
  if max_len <? String.length path then
    let suffix_len := max_len - 3 in
    let start := String.length path - suffix_len in
    if is_char_boundary path start
    then Some ("..." ++ substring start suffix_len path)
    else None
  else Some path.

End Display.

(** ** [proxy_handler] and [handle_regular_response] in [proxy.rs] *)
Module Handler.
Import AgentStore Request.

Definition ANTHROPIC_API_URL : string := "https://api.anthropic.com".

(** [str::from_utf8] succeeds: every sequence is complete and well formed
    (the same table of leading bytes as [from_utf8_lossy]). *)
Fixpoint utf8_valid_aux (fuel : nat) (s : string) : bool :=
  match fuel with
  | O => String.eqb s EmptyString
  | S f =>
      match s with
      | EmptyString => true
      | String b r =>
          match utf8_lead (code b) with
          | None => false
          | Some (1, _, _) => utf8_valid_aux f r
          | Some (n, lo, hi) =>
              match r with
              | String b2 r2 =>
                  (lo <=? code b2) && (code b2 <=? hi) && (conts (n - 2) r2 =? n - 2)
                  && utf8_valid_aux f (substring n (String.length s) s)
              | EmptyString => false
              end
          end
      end
  end.

Definition utf8_valid (s : string) : bool := utf8_valid_aux (String.length s) s.

(** [serde_json::from_slice::<Value>]: string literals must be valid UTF-8
    and every other byte of a document is ASCII, so a byte string decodes
    exactly when it is valid UTF-8 and decodes as a [&str]. *)
Definition from_slice (s : string) : option json :=
  if utf8_valid s then from_str s else None.

(** [from_slice(..).unwrap_or_default()]: [Null] for a body that does not
    decode. *)
Definition decoded (body_bytes : string) : json :=
  match from_slice body_bytes with Some v => v | None => JNull end.

(** A [HeaderMap] as its entries in order, names lowercased as [http]
    stores them. *)
Definition Headers := list (string * string).

(** [HeaderMap::get]: the first value of the name. *)
Definition header_get (hs : Headers) (n : string) : option string :=
  option_map snd (List.find (fun h => String.eqb (fst h) n) hs).

(** [HeaderValue::to_str]: only visible ASCII and tab. *)
Definition is_visible (c : ascii) : bool :=
  ((32 <=? code c) && (code c <? 127)) || (code c =? 9).

Definition header_to_str (v : string) : option string :=
  if forallb is_visible (list_ascii_of_string v) then Some v else None.

Definition is_streaming (hs : Headers) : bool :=
  let content_type :=
    match opt_bind (header_get hs "content-type") header_to_str with Some s => s | None => "" end in
  contains "text/event-stream" content_type.

(** What [send()] gives: an error, or a status, the headers and the body as
    the results its stream yields. *)
Inductive Upstream :=
| UpstreamFailed
| UpstreamResponse (status : Z) (headers : Headers) (body : list chunk_result).

(** The handler's answer: an error status, or a response with a whole or a
    streamed body. *)
Inductive Reply :=
| ReplyError (code : Z)
| ReplyWhole (status : Z) (headers : Headers) (body : string)
| ReplyStream (status : Z) (headers : Headers).

(** [response.bytes()]: the concatenation, or an error if a read fails. *)
Fixpoint read_all (body : list chunk_result) : option string :=
  match body with
  | [] => Some EmptyString
  | ChunkOk c :: rest => option_map (fun r => c ++ r) (read_all rest)
  | ChunkErr :: _ => None
  end.

Definition request_event_data (method path : string) (request_json : json)
    (agent_name claude_session_id : option string) : json :=
  JObject [("method", JString method); ("path", JString path); ("body", request_json);
           ("agent", opt_json JString agent_name);
           ("claude_session_id", opt_json JString claude_session_id)].

(** The outcome of one proxied request: the answer, the events stored and
    broadcast (in order), the agents table after, and the request sent
    upstream (URL, headers, body). *)
Record Outcome := {
  reply : Reply;
  events : list ResponseEvent;
  agents : Table;
  forwarded : option (string * Headers * string) }.

Section WithSerializer.
Variable json_to_string : json -> string.

Definition handle_regular_response (status : Z) (hs : Headers) (body : list chunk_result)
    (is_telemetry : bool) : Reply * list ResponseEvent :=
  match read_all body with
  | None => (ReplyError 502, [])
  | Some response_bytes =>
      let response_json := decoded response_bytes in
      let evs :=
        if is_telemetry then []
        else
          let parsed :=
            if is_some (get response_json "content") || is_some (get response_json "type")
            then Some (parse_json json_to_string response_json) else None in
          [{| event_type := "response";
              data := JObject [("status", JInt status); ("body", response_json);
                               ("parsed", opt_json ParsedResponse_to_json parsed)] |}] in
      (ReplyWhole status hs response_bytes, evs)
  end.

(** [proxy_handler]: [body] is [None] when reading the request body
    fails; [accepts] describes the client of a streamed answer as for
    [mirror_task]. *)
Definition proxy_handler (now new_id : Z) (draw : nat -> N) (t : Table)
    (method path path_and_query : string) (headers : Headers) (body : option string)
    (upstream : Upstream) (accepts : option nat) : Outcome :=
  match body with
  | None => {| reply := ReplyError 400; events := []; agents := t; forwarded := None |}
  | Some body_bytes =>
      let request_json := decoded body_bytes in
      let rp := request_phase now new_id draw t path request_json in
      let req_ev :=
        if rp.(is_telemetry) then []
        else [{| event_type := "request";
                 data := request_event_data method path request_json rp.(agent_name)
                           (extract_claude_session_id request_json) |}] in
      let fwd := Some ((ANTHROPIC_API_URL ++ path_and_query)%string,
                       filter (fun h => negb (String.eqb (fst h) "host")) headers, body_bytes) in
      match upstream with
      | UpstreamFailed =>
          {| reply := ReplyError 502; events := req_ev; agents := rp.(agents_after); forwarded := fwd |}
      | UpstreamResponse status hs chunks =>
          if is_streaming hs then
            {| reply := ReplyStream status hs;
               events := (req_ev ++ match mirror_task rp.(is_telemetry) accepts chunks with
                                    | Some e => [e] | None => [] end)%list;
               agents := rp.(agents_after); forwarded := fwd |}
          else
            let '(r, evs) := handle_regular_response status hs chunks rp.(is_telemetry) in
            {| reply := r; events := (req_ev ++ evs)%list; agents := rp.(agents_after);
               forwarded := fwd |}
      end
  end.

End WithSerializer.

End Handler.

(** ** Concrete inputs of the scenarios *)
Module Scenarios.
Import AgentStore.

(** Five chunks of a streamed reply, one text delta each. *)
Definition delta_chunk (t : string) : string :=
  q "data: {`type`:`content_block_delta`,`delta`:{`type`:`text_delta`,`text`:`" ++ t ++ q "`}}" ++ nl ++ nl.

Definition five_chunks : list string :=
  map delta_chunk ["A"; "B"; "C"; "D"; "E"].

(** A reply whose whole text is a topic-classifier answer (scenario S3). *)
Definition topic_chunk : string :=
  q "data: {`type`:`content_block_delta`,`delta`:{`type`:`text_delta`,`text`:`{\`isNewTopic\`:true,\`title\`:\`Fix auth bug\`}`}}" ++ nl.

Definition topic_reply_text : string := q "{`isNewTopic`:true,`title`:`Fix auth bug`}".

(** A text block carrying the working-directory marker. *)
Definition wd_block : json :=
  JObject [("type", JString "text"); ("text", JString "Working directory: /tmp/proj")].

(** The block as the content of a user message, and as the system prompt. *)
Definition body_wd_in_message_blocks : json :=
  JObject [("messages", JArray [JObject [("role", JString "user"); ("content", JArray [wd_block])]])].

Definition body_wd_in_system_blocks : json :=
  JObject [("system", JArray [wd_block])].

(** A telemetry batch: no [metadata], the session in the second event. *)
Definition telemetry_pre : list json := [JObject [("event_data", JObject [("x", JInt 1)])]].
Definition telemetry_event : json :=
  JObject [("event_data", JObject [("session_id", JString "abc")])].
Definition telemetry_body : json :=
  JObject [("events", JArray (telemetry_pre ++ [telemetry_event])%list)].

(** An agent last seen at time 0, with its stored status [Active]. *)
Definition stale_agent : Agent :=
  {| id := 1; name := "swift-fox"; session_id := "s"; working_directory := None;
     created_at := 0; last_seen_at := 0; status := Active; topic := None |}.

(** Two hundred events, with [seq] 1 to 200, sent on [channel(100)]
    before a subscriber at position 0 reads. *)
Definition sent_events : list Sse.ObservabilityEvent :=
  map (fun k => {| Sse.seq := Some (Z.of_nat k); Sse.agent := None; Sse.payload := JNull |})
      (List.seq 1 200).

Definition busy_channel : Sse.Channel := fold_left Sse.send sent_events (Sse.channel 100).

End Scenarios.
Import Scenarios.

(** * Properties *)

(** ** Sanity checks of the embedding *)
Module Sanity.

Example from_str_obj :
  from_str (q "{`type`:`x`, `n`: [1, -2, 3.5, true, null], `s`:`a\`b`}") =
  Some (JObject [("type", JString "x");
                 ("n", JArray [JInt 1; JInt (-2); JFloat "3.5"; JBool true; JNull]);
                 ("s", JString (q "a`b"))]).
Proof. vm_compute. reflexivity. Qed.

Example s1_text : (parse_streaming s1_input).(text) = Some "Hello world".
Proof. vm_compute. reflexivity. Qed.

Example lossy_valid : from_utf8_lossy (utf8_encode 233 ++ "a") = utf8_encode 233 ++ "a".
Proof. vm_compute. reflexivity. Qed.

Example lossy_truncated :
  from_utf8_lossy (String (byte 226) (String (byte 130) "x")) = replacement ++ "x".
Proof. vm_compute. reflexivity. Qed.

End Sanity.

(** ** The streaming mirror task *)
Module MirrorFacts.

Lemma mirror_loop_ok_some (n : nat) :
  forall cs tl sent acc,
    mirror_loop (Some n) sent (map ChunkOk cs ++ tl)%list acc =
    if (n - sent) <? length cs
    then ((acc ++ firstn (S (n - sent)) cs)%list, SendFailed)
    else mirror_loop (Some n) (sent + length cs) tl (acc ++ cs)%list.
Proof.
  induction cs as [|c cs IH]; intros tl sent acc.
  - simpl. rewrite Nat.add_0_r, app_nil_r. reflexivity.
  - simpl. unfold send_ok. destruct (sent <? n) eqn:E.
    + apply Nat.ltb_lt in E. rewrite IH.
      assert (Hk : n - sent = S (n - S sent)) by lia. rewrite Hk.
      replace (S sent + length cs) with (sent + S (length cs)) by lia.
      cbn [firstn].
      change (S (n - S sent) <? S (length cs)) with (n - S sent <? length cs).
      destruct (n - S sent <? length cs); rewrite <- !app_assoc; reflexivity.
    + apply Nat.ltb_ge in E.
      replace (n - sent) with 0 by lia. reflexivity.
Qed.

Lemma mirror_loop_ok_none :
  forall cs tl sent acc,
    mirror_loop None sent (map ChunkOk cs ++ tl)%list acc =
    mirror_loop None (sent + length cs) tl (acc ++ cs)%list.
Proof.
  induction cs as [|c cs IH]; intros tl sent acc.
  - simpl. rewrite Nat.add_0_r, app_nil_r. reflexivity.
  - simpl. rewrite IH, <- app_assoc.
    replace (S sent + length cs) with (sent + S (length cs)) by lia. reflexivity.
Qed.

Lemma firstn_all_ge {A} (k : nat) (xs : list A) : length xs <= k -> firstn k xs = xs.
Proof. intro H. apply firstn_all2. exact H. Qed.

(** The chunks the loop has pushed when a prefix of good chunks is
    followed by [tl]. *)
Lemma mirror_loop_prefix (accepts : option nat) (cs : list string) (tl : list chunk_result) :
  forall (H : tl = [] \/ exists rest, tl = ChunkErr :: rest),
  fst (mirror_loop accepts 0 (map ChunkOk cs ++ tl)%list []) =
  match accepts with Some k => firstn (S k) cs | None => cs end.
Proof.
  intros H. destruct accepts as [k|].
  - rewrite mirror_loop_ok_some. rewrite Nat.sub_0_r.
    destruct (k <? length cs) eqn:E; [reflexivity|].
    apply Nat.ltb_ge in E.
    rewrite firstn_all_ge by lia.
    destruct H as [-> | [rest ->]]; reflexivity.
  - rewrite mirror_loop_ok_none.
    destruct H as [-> | [rest ->]]; reflexivity.
Qed.

(** [C1] (as amended) When the downstream receiver drops, the mirror task
    stops reading upstream: if the receiver accepted [k] chunks before
    dropping, the response event (of a non-telemetry stream ending at EOF)
    is built from the first [k + 1] upstream chunks, the chunk whose send
    failed included, and not from the chunks after it; if the receiver
    never drops, it is built from all the chunks. *)
Theorem mirror_stops_reading_on_disconnect (cs : list string) :
  (forall k, mirror_task false (Some k) (map ChunkOk cs) = Some (event_of_chunks (firstn (S k) cs)))
  /\ mirror_task false None (map ChunkOk cs) = Some (event_of_chunks cs).
Proof.
  split.
  - intro k. unfold mirror_task.
    pose proof (mirror_loop_prefix (Some k) cs [] (or_introl eq_refl)) as H.
    rewrite app_nil_r in H.
    destruct (mirror_loop (Some k) 0 (map ChunkOk cs) []) as [chunks ex].
    simpl in H. subst chunks. reflexivity.
  - unfold mirror_task.
    pose proof (mirror_loop_prefix None cs [] (or_introl eq_refl)) as H.
    rewrite app_nil_r in H.
    destruct (mirror_loop None 0 (map ChunkOk cs) []) as [chunks ex].
    simpl in H. subst chunks. reflexivity.
Qed.

(** [C1] Counterexample: upstream sends five text deltas, the receiver
    drops after two; the event carries text "ABC", not the "ABCDE" of the
    whole upstream reply. *)
Lemma mirror_disconnect_truncates :
  mirror_task false (Some 2) (map ChunkOk five_chunks) <> Some (event_of_chunks five_chunks)
  /\ (parse_streaming (from_utf8_lossy (String.concat "" (firstn 3 five_chunks)))).(text) = Some "ABC"
  /\ (parse_streaming (from_utf8_lossy (String.concat "" five_chunks))).(text) = Some "ABCDE".
Proof.
  split; [|split; vm_compute; reflexivity].
  intro H. vm_compute in H. discriminate H.
Qed.

(** The agents table keeps every row's topic through the request phase:
    the updates it runs rewrite other columns, and a new row starts with
    none. *)
Lemma update_last_seen_topics (t : AgentStore.Table) aid st now :
  map AgentStore.topic (AgentStore.update_last_seen t aid st now) = map AgentStore.topic t.
Proof.
  unfold AgentStore.update_last_seen. rewrite map_map. apply map_ext.
  intro a. destruct (Z.eqb _ _); reflexivity.
Qed.

Lemma update_working_directory_topics (t : AgentStore.Table) aid wd :
  map AgentStore.topic (AgentStore.update_working_directory t aid wd) = map AgentStore.topic t.
Proof.
  unfold AgentStore.update_working_directory. rewrite map_map. apply map_ext.
  intro a. destruct (Z.eqb _ _); reflexivity.
Qed.

Lemma get_or_create_topics now new_id draw t sid wd :
  map AgentStore.topic (snd (AgentStore.get_or_create_agent now new_id draw t sid wd))
    = map AgentStore.topic t
  \/ map AgentStore.topic (snd (AgentStore.get_or_create_agent now new_id draw t sid wd))
    = (map AgentStore.topic t ++ [None])%list.
Proof.
  unfold AgentStore.get_or_create_agent.
  destruct (AgentStore.find_by_session_id t sid) as [a|].
  - left. destruct (_ && _); simpl;
      rewrite ?update_working_directory_topics; apply update_last_seen_topics.
  - unfold AgentStore.insert. destruct (_ || _); simpl.
    + left. reflexivity.
    + right. rewrite map_app. reflexivity.
Qed.

Lemma request_phase_topics now new_id draw t path j :
  map AgentStore.topic (Request.agents_after (Request.request_phase now new_id draw t path j))
    = map AgentStore.topic t
  \/ map AgentStore.topic (Request.agents_after (Request.request_phase now new_id draw t path j))
    = (map AgentStore.topic t ++ [None])%list.
Proof.
  unfold Request.request_phase.
  destruct (extract_claude_session_id j) as [sid|]; [|left; reflexivity].
  pose proof (get_or_create_topics now new_id draw t sid (extract_working_directory j)) as H.
  destruct (AgentStore.get_or_create_agent now new_id draw t sid (extract_working_directory j))
    as [r t'].
  destruct r; exact H.
Qed.

Lemma request_phase_flag now new_id draw t path j :
  Request.is_telemetry (Request.request_phase now new_id draw t path j)
  = Request.contains "event_logging" path.
Proof.
  unfold Request.request_phase.
  destruct (extract_claude_session_id j) as [sid|]; [|reflexivity].
  destruct (AgentStore.get_or_create_agent now new_id draw t sid (extract_working_directory j))
    as [r t'].
  destruct r; reflexivity.
Qed.

Lemma mirror_task_emits accepts stream :
  mirror_task false accepts stream = Some (event_of_chunks (fst (mirror_loop accepts 0 stream []))).
Proof.
  unfold mirror_task. destruct (mirror_loop accepts 0 stream []) as [chunks ex]. reflexivity.
Qed.

(** [C2] (as amended) The code has no topic classifier.  The mirror task
    of a non-telemetry stream emits one response event, built from the
    chunks it read, whatever their text; the parsed response in it has no
    [is_topic_event] and no [topic] key.  The proxy never updates an
    agent's topic: after any request every row of the agents table has the
    topic it had before, and a row it adds has none.  For a streamed answer
    to a non-telemetry request, the handler records exactly the request
    event and that response event. *)
Theorem mirror_never_suppresses :
  (forall (accepts : option nat) (stream : list chunk_result),
     mirror_task false accepts stream = Some (event_of_chunks (fst (mirror_loop accepts 0 stream [])))
     /\ forall raw_in,
          get (ParsedResponse_to_json (parse_streaming raw_in)) "is_topic_event" = None
          /\ get (ParsedResponse_to_json (parse_streaming raw_in)) "topic" = None)
  /\ (forall json_to_string now new_id draw t method path pq headers body upstream accepts,
        let o := Handler.proxy_handler json_to_string now new_id draw t method path pq headers
                   body upstream accepts in
        map AgentStore.topic (Handler.agents o) = map AgentStore.topic t
        \/ map AgentStore.topic (Handler.agents o) = (map AgentStore.topic t ++ [None])%list)
  /\ (forall json_to_string now new_id draw t method path pq headers b status hs cs accepts,
        Handler.is_streaming hs = true ->
        Request.contains "event_logging" path = false ->
        exists req,
          Handler.events (Handler.proxy_handler json_to_string now new_id draw t method path pq
                            headers (Some b) (Handler.UpstreamResponse status hs cs) accepts)
          = [req; event_of_chunks (fst (mirror_loop accepts 0 cs []))]
          /\ event_type req = "request").
Proof.
  split; [|split].
  - intros accepts stream. split; [apply mirror_task_emits|].
    intro raw_in. split; reflexivity.
  - intros json_to_string now new_id draw t method path pq headers body upstream accepts o.
    subst o. unfold Handler.proxy_handler.
    destruct body as [b|]; [|left; reflexivity].
    destruct upstream as [|status hs cs]; [apply request_phase_topics|].
    destruct (Handler.is_streaming hs); [apply request_phase_topics|].
    destruct (Handler.handle_regular_response _ _ _ _ _) as [r evs].
    apply request_phase_topics.
  - intros json_to_string now new_id draw t method path pq headers b status hs cs accepts
      Hs Ht.
    unfold Handler.proxy_handler. cbv zeta. rewrite Hs, request_phase_flag, Ht.
    rewrite mirror_task_emits. eexists. split; reflexivity.
Qed.

(** [C2] Counterexample: the reply of scenario S3 has the classifier's
    shape, and the mirror task still emits its event. *)
Lemma topic_reply_emitted :
  (parse_streaming (from_utf8_lossy topic_chunk)).(text) = Some topic_reply_text
  /\ from_str topic_reply_text =
     Some (JObject [("isNewTopic", JBool true); ("title", JString "Fix auth bug")])
  /\ mirror_task false None [ChunkOk topic_chunk] <> None.
Proof.
  split; [vm_compute; reflexivity|].
  split; [vm_compute; reflexivity|].
  intro H. vm_compute in H. discriminate H.
Qed.

(** [C2] Witness: the topic-shaped reply of scenario S3 streamed back to
    a request of session [s]; the handler records the request and the
    response event. *)
Lemma mirror_never_suppresses_witness :
  exists req,
    Handler.events (Handler.proxy_handler (fun _ => EmptyString) 5 2 (fun _ => 0%N) [stale_agent]
                      "POST" "/v1/messages" "/v1/messages" []
                      (Some (q "{`metadata`:{`user_id`:`user_x_session_s`}}"))
                      (Handler.UpstreamResponse 200 [("content-type", "text/event-stream")]
                         [ChunkOk topic_chunk]) None)
    = [req; event_of_chunks [topic_chunk]]
    /\ event_type req = "request".
Proof.
  apply (proj2 (proj2 mirror_never_suppresses)); vm_compute; reflexivity.
Defined.

(** [C3] (as amended) A read error ends the loop like the end of the
    stream does: for a non-telemetry stream the task still emits the
    response event, built from the chunks read before the error (or, if
    the receiver dropped first, up to the failed send); a telemetry stream
    emits nothing. *)
Theorem mirror_read_error_emits_partial
    (accepts : option nat) (cs : list string) (rest : list chunk_result) :
  mirror_task false accepts (map ChunkOk cs ++ ChunkErr :: rest)%list =
    Some (event_of_chunks (match accepts with Some k => firstn (S k) cs | None => cs end))
  /\ mirror_task true accepts (map ChunkOk cs ++ ChunkErr :: rest)%list = None.
Proof.
  pose proof (mirror_loop_prefix accepts cs (ChunkErr :: rest) (or_intror (ex_intro _ rest eq_refl))) as H.
  unfold mirror_task.
  destruct (mirror_loop accepts 0 (map ChunkOk cs ++ ChunkErr :: rest)%list []) as [chunks ex].
  simpl in H. subst chunks. split; reflexivity.
Qed.

(** [C3] Counterexample: one good chunk, then a read error: an event built
    from that chunk is emitted. *)
Lemma read_error_still_emits :
  mirror_task false None [ChunkOk (delta_chunk "A"); ChunkErr; ChunkOk (delta_chunk "B")]
  = Some (event_of_chunks [delta_chunk "A"])
  /\ (parse_streaming (from_utf8_lossy (delta_chunk "A"))).(text) = Some "A".
Proof. split; vm_compute; reflexivity. Qed.

End MirrorFacts.

(** ** The SSE parser on scenario S1 *)
Module ParserFacts.

(** [C4] (as amended) On the four data lines of scenario S1 the parser
    yields text "Hello world" (the two deltas in stream order), model "c",
    message id "m", [streaming = true]; the never-filled thinking buffer
    collapses to absent, and there are no tool calls and no usage.  The
    parsed response has no [is_topic_event] field. *)
Theorem parse_s1 :
  let p := parse_streaming s1_input in
  p.(text) = Some "Hello world"
  /\ get p.(metadata) "model" = Some (JString "c")
  /\ get p.(metadata) "message_id" = Some (JString "m")
  /\ p.(streaming) = true
  /\ p.(thinking) = None
  /\ p.(tool_calls) = []
  /\ p.(usage) = None
  /\ get (ParsedResponse_to_json p) "is_topic_event" = None.
Proof. vm_compute. repeat split. Qed.

(** [C4] Counterexample: the parsed response of S1, as it is serialized
    into the event, has no [is_topic_event] key, so it is not [false]. *)
Lemma s1_no_topic_flag :
  get (ParsedResponse_to_json (parse_streaming s1_input)) "is_topic_event" <> Some (JBool false).
Proof. vm_compute. discriminate. Qed.

(** Scenario S2: thinking deltas and a text delta go to separate buffers. *)
Example parse_s2 :
  let p := parse_streaming
             (q "data: {`type`:`content_block_delta`,`delta`:{`type`:`thinking_delta`,`thinking`:`Let me think`}}" ++ nl ++
              q "data: {`type`:`content_block_delta`,`delta`:{`type`:`thinking_delta`,`thinking`:`...`}}" ++ nl ++
              q "data: {`type`:`content_block_delta`,`delta`:{`type`:`text_delta`,`text`:`Answer`}}" ++ nl) in
  p.(thinking) = Some "Let me think..." /\ p.(text) = Some "Answer".
Proof. vm_compute. split; reflexivity. Qed.

End ParserFacts.

(** ** The agent store *)
Module AgentFacts.
Import AgentStore Cli.

Lemma find_first_map (p : Agent -> bool) (f : Agent -> Agent)
    (Hf : forall a, p (f a) = p a) (t : Table) :
  find_first p (map f t) = option_map f (find_first p t).
Proof.
  induction t as [|a t IH]; simpl; [reflexivity|].
  rewrite Hf. destruct (p a); [reflexivity|exact IH].
Qed.

Lemma find_first_app_none (p : Agent -> bool) (t : Table) (a : Agent) :
  find_first p t = None -> find_first p (t ++ [a])%list = if p a then Some a else None.
Proof.
  induction t as [|b t IH]; simpl; [reflexivity|].
  destruct (p b); [discriminate|exact IH].
Qed.

(** The updates by id leave [session_id] alone, so a session's first row
    stays the first. *)
Lemma find_by_session_id_map (f : Agent -> Agent)
    (Hf : forall a, session_id (f a) = session_id a) (t : Table) (sid : string) :
  find_by_session_id (map f t) sid = option_map f (find_by_session_id t sid).
Proof. apply find_first_map. intro a. rewrite Hf. reflexivity. Qed.

Ltac by_id_update := intro; match goal with |- context [Z.eqb ?x ?y] => destruct (Z.eqb x y) end; reflexivity.

(** After a successful [get_or_create_agent] the session's row is the
    returned agent's, seen at [now]. *)
Lemma get_or_create_ok_row (now nid : Z) (draw : nat -> N) (t : Table) (sid : string)
    (wd : option string) (a : Agent) (t' : Table) :
  get_or_create_agent now nid draw t sid wd = (Ok a, t') ->
  exists a', find_by_session_id t' sid = Some a'
    /\ a'.(id) = a.(id) /\ a'.(name) = a.(name)
    /\ a'.(last_seen_at) = now /\ a'.(status) = Active
    /\ a'.(working_directory) = a.(working_directory).
Proof.
  unfold get_or_create_agent.
  destruct (find_by_session_id t sid) as [agent|] eqn:Hf.
  - destruct (is_some wd && negb (is_some (working_directory agent))) eqn:Hc;
      intro H; inversion H; subst; clear H.
    + unfold update_working_directory, update_last_seen.
      rewrite find_by_session_id_map by by_id_update.
      rewrite find_by_session_id_map by by_id_update.
      rewrite Hf. simpl. rewrite Z.eqb_refl. simpl. rewrite Z.eqb_refl.
      eexists; repeat split; reflexivity.
    + unfold update_last_seen.
      rewrite find_by_session_id_map by by_id_update.
      rewrite Hf. simpl. rewrite Z.eqb_refl.
      eexists; repeat split; reflexivity.
  - match goal with |- context [insert t ?ag] => destruct (insert t ag) eqn:Hi end;
      intro H; inversion H; subst; clear H.
    unfold insert in Hi.
    match type of Hi with context [if ?c then _ else _] => destruct c end;
      inversion Hi; subst; clear Hi.
    unfold find_by_session_id. rewrite find_first_app_none by exact Hf.
    simpl. rewrite String.eqb_refl.
    eexists; repeat split; reflexivity.
Qed.

(** The working directory a successful call returns, when the session
    had none recorded. *)
Lemma get_or_create_ok_wd (now nid : Z) (draw : nat -> N) (t : Table) (sid : string)
    (wd : option string) (a : Agent) (t' : Table) :
  (forall b, find_by_session_id t sid = Some b -> b.(working_directory) = None) ->
  get_or_create_agent now nid draw t sid wd = (Ok a, t') ->
  a.(working_directory) = wd.
Proof.
  intros Hnone. unfold get_or_create_agent.
  destruct (find_by_session_id t sid) as [agent|] eqn:Hf.
  - specialize (Hnone agent eq_refl).
    rewrite Hnone. destruct wd as [d|]; simpl; intro H; inversion H; subst; clear H.
    + reflexivity.
    + exact Hnone.
  - match goal with |- context [insert t ?ag] => destruct (insert t ag) end;
      intro H; inversion H; subst; reflexivity.
Qed.

(** [C5] (as amended) Two successful calls [get_or_create(S, D1)] then
    [get_or_create(S, D2)], on a store where S has no working directory
    recorded yet, return the same id and name; afterwards S's row has
    working directory D1 if D1 is present (an empty string included),
    else D2. *)
Theorem get_or_create_twice (t : Table) (sid : string) (d1 d2 : option string)
    (now1 now2 id1 id2 : Z) (draw1 draw2 : nat -> N) (a1 a2 : Agent) (t1 t2 : Table)
    (Hnone : forall b, find_by_session_id t sid = Some b -> b.(working_directory) = None)
    (H1 : get_or_create_agent now1 id1 draw1 t sid d1 = (Ok a1, t1))
    (H2 : get_or_create_agent now2 id2 draw2 t1 sid d2 = (Ok a2, t2)) :
  a1.(id) = a2.(id) /\ a1.(name) = a2.(name)
  /\ exists a, find_by_session_id t2 sid = Some a
       /\ a.(working_directory) = match d1 with Some _ => d1 | None => d2 end.
Proof.
  pose proof (get_or_create_ok_wd _ _ _ _ _ _ _ _ Hnone H1) as Hw1.
  destruct (get_or_create_ok_row _ _ _ _ _ _ _ _ H1) as (r & Hr & Hid & Hnm & _ & _ & Hwd).
  destruct (get_or_create_ok_row _ _ _ _ _ _ _ _ H2) as (r2 & Hr2 & Hid2 & Hnm2 & _ & _ & Hwd2).
  unfold get_or_create_agent in H2. rewrite Hr in H2.
  rewrite Hwd, Hw1 in H2.
  destruct (is_some d2 && negb (is_some d1)) eqn:Hc;
    injection H2 as Ha2 Ht2; subst a2 t2.
  - simpl in *.
    split; [congruence|]. split; [congruence|].
    exists r2. split; [exact Hr2|].
    rewrite Hwd2. destruct d1 as [w|]; simpl in Hc.
    + rewrite andb_false_r in Hc. discriminate.
    + reflexivity.
  - split; [congruence|]. split; [congruence|].
    exists r2. split; [exact Hr2|].
    rewrite Hwd2, Hwd, Hw1. destruct d1 as [w|]; [reflexivity|].
    destruct d2; [discriminate|reflexivity].
Qed.

(** [C5] Witness: a fresh store, then [D1 = "/a"], [D2 = "/b"]. *)
Lemma get_or_create_twice_witness :
  let a1 := {| id := 7; name := "swift-fox"; session_id := "s"; working_directory := Some "/a";
               created_at := 1; last_seen_at := 1; status := Active; topic := None |} in
  let t2 := [with_seen a1 2 Active] in
  (forall b, find_by_session_id [] "s" = Some b -> b.(working_directory) = None)
  /\ get_or_create_agent 1 7 (fun _ => 0%N) [] "s" (Some "/a") = (Ok a1, [a1])
  /\ get_or_create_agent 2 8 (fun _ => 0%N) [a1] "s" (Some "/b") = (Ok a1, t2)
  /\ (a1.(id) = a1.(id) /\ a1.(name) = a1.(name)
      /\ exists a, find_by_session_id t2 "s" = Some a /\ a.(working_directory) = Some "/a").
Proof.
  intros a1 t2.
  assert (Hn : forall b, find_by_session_id [] "s" = Some b -> b.(working_directory) = None)
    by (intros b Hb; discriminate Hb).
  assert (H1 : get_or_create_agent 1 7 (fun _ => 0%N) [] "s" (Some "/a") = (Ok a1, [a1]))
    by (vm_compute; reflexivity).
  assert (H2 : get_or_create_agent 2 8 (fun _ => 0%N) [a1] "s" (Some "/b") = (Ok a1, t2))
    by (vm_compute; reflexivity).
  split; [exact Hn|]. split; [exact H1|]. split; [exact H2|].
  exact (get_or_create_twice [] "s" (Some "/a") (Some "/b") 1 2 7 8 (fun _ => 0%N) (fun _ => 0%N)
           a1 a1 [a1] t2 Hn H1 H2).
Defined.

(** [C5] Counterexample: a first call with an empty working directory
    records it, and the second call's non-empty one is not written. *)
Lemma empty_working_directory_kept :
  match get_or_create_agent 1 7 (fun _ => 0%N) [] "s" (Some "") with
  | (Ok _, t1) =>
      match get_or_create_agent 2 8 (fun _ => 0%N) t1 "s" (Some "/work") with
      | (Ok _, t2) => option_map working_directory (find_by_session_id t2 "s") = Some (Some "")
      | _ => False
      end
  | _ => False
  end
  /\ Some "" <> Some "/work".
Proof. split; [vm_compute; reflexivity | discriminate]. Qed.

Lemma In_insert_desc (a b : Agent) (l : Table) : In a (insert_desc b l) <-> a = b \/ In a l.
Proof.
  induction l as [|c l IH]; simpl.
  - intuition congruence.
  - destruct (Z.ltb (last_seen_at c) (last_seen_at b)); simpl; [intuition congruence|].
    rewrite IH. tauto.
Qed.

Lemma In_list_all (a : Agent) (t : Table) : In a (list_all t) <-> In a t.
Proof.
  induction t as [|b t IH]; simpl; [tauto|].
  rewrite In_insert_desc, IH. intuition congruence.
Qed.

(** [C6] (code bug) [GET /api/agents] serves the stored rows unchanged:
    an agent stored [Active] and last seen ten minutes ago is reported
    [Active], while the console listing of the same row derives
    [Inactive]. *)
Theorem api_agents_reports_stored_status :
  (forall t a, In a (agents_handler t) <-> In a t)
  /\ map status (agents_handler [stale_agent]) = [Active]
  /\ show_agents_status (10 * minute) stale_agent = Inactive.
Proof.
  split; [intros t a; apply In_list_all|].
  split; vm_compute; reflexivity.
Qed.

(** [C10] [mark_inactive] keeps the rows and their order; a row of the
    session gets status [Inactive] and [last_seen_at = now] with every
    other column unchanged; other rows are untouched. *)
Theorem mark_inactive_frame (t : Table) (sid : string) (now : Z) (i : nat) (a : Agent)
    (Hi : nth_error t i = Some a) :
  length (mark_inactive t sid now) = length t
  /\ exists a', nth_error (mark_inactive t sid now) i = Some a'
       /\ a'.(id) = a.(id) /\ a'.(name) = a.(name) /\ a'.(session_id) = a.(session_id)
       /\ a'.(working_directory) = a.(working_directory) /\ a'.(topic) = a.(topic)
       /\ a'.(created_at) = a.(created_at)
       /\ (if String.eqb a.(session_id) sid
           then a'.(status) = Inactive /\ a'.(last_seen_at) = now
           else a' = a).
Proof.
  unfold mark_inactive. split; [apply length_map|].
  rewrite nth_error_map, Hi. simpl.
  destruct (String.eqb (session_id a) sid); eexists; repeat split.
Qed.

(** [C10] Witness: the stale agent's session is terminated at time 5. *)
Lemma mark_inactive_frame_witness :
  nth_error [stale_agent] 0 = Some stale_agent
  /\ (length (mark_inactive [stale_agent] "s" 5) = length [stale_agent]
      /\ exists a', nth_error (mark_inactive [stale_agent] "s" 5) 0 = Some a'
         /\ a'.(id) = stale_agent.(id) /\ a'.(name) = stale_agent.(name)
         /\ a'.(session_id) = stale_agent.(session_id)
         /\ a'.(working_directory) = stale_agent.(working_directory)
         /\ a'.(topic) = stale_agent.(topic) /\ a'.(created_at) = stale_agent.(created_at)
         /\ (if String.eqb stale_agent.(session_id) "s"
             then a'.(status) = Inactive /\ a'.(last_seen_at) = 5%Z
             else a' = stale_agent)).
Proof.
  split; [reflexivity|].
  exact (mark_inactive_frame [stale_agent] "s" 5 0 stale_agent eq_refl).
Defined.

End AgentFacts.

(** ** The request extractors *)
Module ExtractFacts.
Import AgentStore Request.

(** [C7] (code bug) The marker is found in the text blocks of the system
    prompt but not in those of a message: only a message whose content is
    a plain string is searched. *)
Theorem working_directory_message_blocks_missed :
  extract_working_directory body_wd_in_message_blocks = None
  /\ extract_working_directory body_wd_in_system_blocks = Some "/tmp/proj".
Proof. split; vm_compute; reflexivity. Qed.

Lemma find_map_skip {A B} (f : A -> option B) (pre : list A) (x : A) (post : list A) :
  Forall (fun y => f y = None) pre -> find_map f (pre ++ x :: post)%list = match f x with
                                                                       | Some b => Some b
                                                                       | None => find_map f post
                                                                       end.
Proof.
  induction 1 as [|y pre Hy _ IH]; simpl; [reflexivity|].
  rewrite Hy. exact IH.
Qed.

(** [C9] A body whose [metadata.user_id] gives no session id gets the
    first string [events[i].event_data.session_id]; the request phase,
    whatever the path (telemetry included), then resolves the agent of
    that session and the session's row is seen at [now]. *)
Theorem telemetry_session_fallback (now nid : Z) (draw : nat -> N) (t : Table) (path : string)
    (j : json) (pre : list json) (e : json) (post : list json) (s : string)
    (a : Agent) (t' : Table)
    (Hmeta : extract_session_id_from_metadata_user_id j = None)
    (Hev : get j "events" = Some (JArray (pre ++ e :: post)%list))
    (Hpre : Forall (fun x => event_session_id x = None) pre)
    (He : event_session_id e = Some s)
    (Hok : get_or_create_agent now nid draw t s (extract_working_directory j) = (Ok a, t')) :
  extract_claude_session_id j = Some s
  /\ (request_phase now nid draw t path j).(agent_name) = Some a.(name)
  /\ (request_phase now nid draw t path j).(agents_after) = t'
  /\ exists a', find_by_session_id t' s = Some a' /\ a'.(last_seen_at) = now
                /\ a'.(name) = a.(name).
Proof.
  assert (Hsid : extract_claude_session_id j = Some s).
  { unfold extract_claude_session_id, extract_session_id_from_events.
    rewrite Hmeta, Hev. simpl. rewrite (find_map_skip _ _ _ _ Hpre), He. reflexivity. }
  destruct (AgentFacts.get_or_create_ok_row _ _ _ _ _ _ _ _ Hok)
    as (a' & Ha' & _ & Hnm & Hseen & _ & _).
  unfold request_phase. rewrite Hsid, Hok. simpl.
  split; [reflexivity|]. split; [reflexivity|]. split; [reflexivity|].
  exists a'. split; [exact Ha'|]. split; [exact Hseen|exact Hnm].
Qed.

(** [C9] Witness: the telemetry batch on an empty store. *)
Lemma telemetry_session_fallback_witness :
  let a := {| id := 7; name := "swift-fox"; session_id := "abc"; working_directory := None;
              created_at := 1; last_seen_at := 1; status := Active; topic := None |} in
  extract_session_id_from_metadata_user_id telemetry_body = None
  /\ get telemetry_body "events" = Some (JArray (telemetry_pre ++ telemetry_event :: [])%list)
  /\ Forall (fun x => event_session_id x = None) telemetry_pre
  /\ event_session_id telemetry_event = Some "abc"
  /\ get_or_create_agent 1 7 (fun _ => 0%N) [] "abc" (extract_working_directory telemetry_body)
     = (Ok a, [a])
  /\ (extract_claude_session_id telemetry_body = Some "abc"
      /\ (request_phase 1 7 (fun _ => 0%N) [] "/api/event_logging/batch" telemetry_body).(agent_name)
         = Some a.(name)
      /\ (request_phase 1 7 (fun _ => 0%N) [] "/api/event_logging/batch" telemetry_body).(agents_after)
         = [a]
      /\ exists a', find_by_session_id [a] "abc" = Some a' /\ a'.(last_seen_at) = 1%Z
                    /\ a'.(name) = a.(name)).
Proof.
  intro a.
  assert (H1 : extract_session_id_from_metadata_user_id telemetry_body = None)
    by (vm_compute; reflexivity).
  assert (H2 : get telemetry_body "events" = Some (JArray (telemetry_pre ++ telemetry_event :: [])%list))
    by (vm_compute; reflexivity).
  assert (H3 : Forall (fun x => event_session_id x = None) telemetry_pre)
    by (repeat constructor).
  assert (H4 : event_session_id telemetry_event = Some "abc") by (vm_compute; reflexivity).
  assert (H5 : get_or_create_agent 1 7 (fun _ => 0%N) [] "abc" (extract_working_directory telemetry_body)
               = (Ok a, [a])) by (vm_compute; reflexivity).
  split; [exact H1|]. split; [exact H2|]. split; [exact H3|]. split; [exact H4|].
  split; [exact H5|].
  exact (telemetry_session_fallback 1 7 (fun _ => 0%N) [] "/api/event_logging/batch" telemetry_body
           telemetry_pre telemetry_event [] "abc" a [a] H1 H2 H3 H4 H5).
Defined.

End ExtractFacts.

(** ** The subscriber endpoint *)
Module SseFacts.
Import Sse.

(** [C8] (code bug) A subscriber that fell 72 events behind on
    [channel(100)] (128 slots) after 200 sends gets a resync envelope with
    [events_dropped = 72] but [latest_seq = 0], while the latest event has
    [seq = 200]. *)
Theorem resync_latest_seq_is_zero :
  busy_channel.(buffer_len) = 128
  /\ sse_step None busy_channel 0 = (Some (ResyncRequired 72 0), 72)
  /\ option_map seq (last (map Some busy_channel.(sent)) None) = Some (Some 200%Z).
Proof. vm_compute. repeat split. Qed.

End SseFacts.

(** * Further properties of the code *)

(** ** The SSE text and its decoding *)
Module StreamExtras.
Import Handler.

Lemma sapp_assoc (a b c : string) : ((a ++ b) ++ c)%string = (a ++ (b ++ c))%string.
Proof. induction a as [|x a IH]; simpl; [reflexivity|]. rewrite IH. reflexivity. Qed.

Lemma sapp_nil_r (a : string) : (a ++ EmptyString)%string = a.
Proof. induction a as [|x a IH]; simpl; [reflexivity|]. rewrite IH. reflexivity. Qed.

(** [str::lines] restarts after each newline. *)
Lemma lines_aux_split (a b cur : string) :
  lines_aux cur (a ++ String LF b) = (lines_aux cur (a ++ nl) ++ lines_aux EmptyString b)%list.
Proof.
  revert cur. induction a as [|c a IH]; intro cur; simpl.
  - reflexivity.
  - destruct (Ascii.eqb c LF); [rewrite IH; reflexivity | apply IH].
Qed.

Lemma lines_aux_one (l cur : string) :
  forallb (fun c => negb (Ascii.eqb c LF)) (list_ascii_of_string l) = true ->
  lines_aux cur (l ++ nl) = [strip_cr (cur ++ l)].
Proof.
  revert cur. induction l as [|c l IH]; intros cur H; simpl.
  - rewrite sapp_nil_r. reflexivity.
  - simpl in H. apply andb_true_iff in H as [Hc H].
    destruct (Ascii.eqb c LF); [discriminate|].
    rewrite IH by exact H. rewrite sapp_assoc. reflexivity.
Qed.

(** The SSE parser is incremental at line boundaries: parsing [a], a
    newline, then [b] is parsing the lines of [a] and continuing from that
    state with the lines of [b]. *)
Theorem sse_parse_split (a b : string) :
  fold_left step_line (lines (a ++ nl ++ b)) init_state
  = fold_left step_line (lines b) (fold_left step_line (lines (a ++ nl)) init_state).
Proof.
  unfold lines. change (nl ++ b)%string with (String LF b).
  rewrite lines_aux_split, fold_left_app. reflexivity.
Qed.

(** A line that is not a [data: ] line, or whose data is not JSON (a blank
    line, an [event:] line, a comment), changes nothing the parser
    returns except [raw]. *)
Theorem sse_skipped_line (a l b : string)
    (Hl : forallb (fun c => negb (Ascii.eqb c LF)) (list_ascii_of_string l) = true)
    (Hd : match strip_prefix "data: " (strip_cr l) with
          | Some d => from_str d = None
          | None => True
          end) :
  let p1 := parse_sse_events (a ++ nl ++ l ++ nl ++ b) in
  let p2 := parse_sse_events (a ++ nl ++ b) in
  p1.(thinking) = p2.(thinking) /\ p1.(text) = p2.(text) /\ p1.(tool_calls) = p2.(tool_calls)
  /\ p1.(usage) = p2.(usage) /\ p1.(metadata) = p2.(metadata).
Proof.
  assert (Hs : forall st, step_line st (strip_cr l) = st).
  { intro st. unfold step_line. destruct (strip_prefix "data: " (strip_cr l)) as [d|]; [|reflexivity].
    rewrite Hd. reflexivity. }
  assert (Hf : fold_left step_line (lines (a ++ nl ++ l ++ nl ++ b)) init_state
               = fold_left step_line (lines (a ++ nl ++ b)) init_state).
  { unfold lines. change (nl ++ l ++ nl ++ b)%string with (String LF (l ++ String LF b)).
    change (nl ++ b)%string with (String LF b).
    rewrite !lines_aux_split, !fold_left_app.
    rewrite (lines_aux_one l EmptyString Hl). simpl. rewrite Hs. reflexivity. }
  unfold parse_sse_events. cbv zeta. rewrite Hf. repeat split.
Qed.

(** Witness: an [event:] line between two [data:] lines. *)
Lemma sse_skipped_line_witness :
  let a := q "data: {`type`:`message_start`,`message`:{`id`:`m`,`model`:`c`}}" in
  let b := q "data: {`type`:`content_block_delta`,`delta`:{`type`:`text_delta`,`text`:`Hi`}}" in
  let p1 := parse_sse_events (a ++ nl ++ "event: ping" ++ nl ++ b) in
  let p2 := parse_sse_events (a ++ nl ++ b) in
  p1.(thinking) = p2.(thinking) /\ p1.(text) = p2.(text) /\ p1.(tool_calls) = p2.(tool_calls)
  /\ p1.(usage) = p2.(usage) /\ p1.(metadata) = p2.(metadata).
Proof.
  intros a b.
  apply (sse_skipped_line a "event: ping" b); vm_compute; [reflexivity | exact I].
Defined.

Lemma substring_full (s : string) (m : nat) : String.length s <= m -> substring 0 m s = s.
Proof.
  revert m. induction s as [|c s IH]; intros m H; destruct m as [|m]; simpl in *;
    try reflexivity; try lia.
  rewrite IH by lia. reflexivity.
Qed.

Lemma substring_split (s : string) (n m : nat) :
  String.length s <= n + m -> (substring 0 n s ++ substring n m s)%string = s.
Proof.
  revert n. induction s as [|c s IH]; intros n H.
  - destruct n, m; reflexivity.
  - destruct n as [|n].
    + rewrite (substring_full (String c s) m) by (simpl in H |- *; lia). reflexivity.
    + simpl. rewrite IH; [reflexivity|]. simpl in H. lia.
Qed.

Lemma lossy_of_valid (f : nat) (s : string) : utf8_valid_aux f s = true -> lossy f s = s.
Proof.
  revert s. induction f as [|f IH]; intros s H.
  - simpl in H. apply String.eqb_eq in H. subst. reflexivity.
  - destruct s as [|b r]; [reflexivity|].
    cbn [utf8_valid_aux lossy] in H |- *.
    destruct (utf8_lead (code b)) as [[[n lo] hi]|]; [|discriminate].
    destruct n as [|[|n]].
    all: try (rewrite IH by exact H; reflexivity).
    all: destruct r as [|b2 r2]; [discriminate|].
    all: apply andb_true_iff in H as [H H4]; apply andb_true_iff in H as [H H3];
         apply andb_true_iff in H as [H1 H2].
    all: rewrite H1, H2; cbn [andb]; cbv zeta; rewrite H3; rewrite IH by exact H4;
         apply substring_split; lia.
Qed.

(** Decoding the mirrored bytes loses nothing when they are valid UTF-8:
    [from_utf8_lossy] is then the identity. *)
Theorem from_utf8_lossy_valid (s : string) (Hv : utf8_valid s = true) : from_utf8_lossy s = s.
Proof. apply lossy_of_valid. exact Hv. Qed.

(** Witness: ["é"] and a four-byte character. *)
Lemma from_utf8_lossy_valid_witness :
  let s := String (byte 195) (String (byte 169)
             (String (byte 240) (String (byte 159) (String (byte 152) (String (byte 128) "ok"))))) in
  utf8_valid s = true /\ from_utf8_lossy s = s.
Proof.
  intro s. assert (Hv : utf8_valid s = true) by (vm_compute; reflexivity).
  split; [exact Hv | exact (from_utf8_lossy_valid s Hv)].
Defined.

End StreamExtras.

(** ** The whole-document parser and the request helpers *)
Module JsonExtras.
Import JsonParse.

Lemma block_keeps_text (acc : option string * option string * list ToolCall) (x : json) :
  type_of x <> Some "text" -> snd (fst (parse_json_block acc x)) = snd (fst acc).
Proof.
  intro Hx. destruct acc as [[th tx] tc]. unfold parse_json_block.
  destruct (type_of x) as [ty|]; [|reflexivity].
  destruct (String.eqb ty "thinking"); [reflexivity|].
  destruct (String.eqb ty "text") eqn:E.
  - apply String.eqb_eq in E. subst. contradiction.
  - destruct (String.eqb ty "tool_use"); [|reflexivity].
    destruct (str_field x "id"), (str_field x "name"); reflexivity.
Qed.

Lemma fold_keeps_text (post : list json) (acc : option string * option string * list ToolCall) :
  Forall (fun x => type_of x <> Some "text") post ->
  snd (fst (fold_left parse_json_block post acc)) = snd (fst acc).
Proof.
  revert acc. induction post as [|x post IH]; intros acc H; [reflexivity|].
  inversion H as [|? ? Hx Hpost]; subst. simpl.
  rewrite IH by exact Hpost. apply block_keeps_text. exact Hx.
Qed.

(** [parse_json] reports the [text] of the last block of type [text]
    only: earlier text blocks are lost, and a last text block whose [text]
    is not a string yields no text at all. *)
Theorem parse_json_last_text (json_to_string : json -> string) (j b : json) (pre post : list json)
    (Hc : opt_bind (get j "content") as_array = Some (pre ++ b :: post)%list)
    (Hb : type_of b = Some "text")
    (Hpost : Forall (fun x => type_of x <> Some "text") post) :
  (parse_json json_to_string j).(text) = str_field b "text".
Proof.
  unfold parse_json. rewrite Hc, fold_left_app. cbn [fold_left].
  set (acc := fold_left parse_json_block pre (None, None, [])).
  pose proof (fold_keeps_text post (parse_json_block acc b) Hpost) as Hk.
  assert (Hstep : snd (fst (parse_json_block acc b)) = str_field b "text").
  { destruct acc as [[th tx] tc]. unfold parse_json_block. rewrite Hb. reflexivity. }
  rewrite Hstep in Hk.
  destruct (fold_left parse_json_block post (parse_json_block acc b)) as [[th' tx'] tc'].
  simpl in Hk |- *. exact Hk.
Qed.

(** Witness: two text blocks around a tool call; the second wins. *)
Lemma parse_json_last_text_witness :
  let t1 := JObject [("type", JString "text"); ("text", JString "first")] in
  let t2 := JObject [("type", JString "text"); ("text", JString "second")] in
  let tu := JObject [("type", JString "tool_use"); ("id", JString "t"); ("name", JString "Read")] in
  let j := JObject [("content", JArray [t1; tu; t2; tu])] in
  (parse_json (fun _ => EmptyString) j).(text) = Some "second".
Proof.
  intros t1 t2 tu j.
  apply (parse_json_last_text (fun _ => EmptyString) j t2 [t1; tu] [tu]).
  - reflexivity.
  - reflexivity.
  - constructor; [discriminate | constructor].
Defined.

Lemma find_app {A} (f : A -> bool) (l1 l2 : list A) :
  List.find f (l1 ++ l2) = match List.find f l1 with Some x => Some x | None => List.find f l2 end.
Proof.
  induction l1 as [|x l1 IH]; simpl; [reflexivity|].
  destruct (f x); [reflexivity | exact IH].
Qed.

Lemma find_none {A} (f : A -> bool) (l : list A) :
  Forall (fun x => f x = false) l -> List.find f l = None.
Proof.
  induction 1 as [|x l Hx _ IH]; simpl; [reflexivity|]. rewrite Hx. exact IH.
Qed.

(** [extract_user_message_text] reads the last message whose role is
    [user], whatever comes before it and whatever non-user messages follow. *)
Theorem extract_user_message_text_last (request_json m : json) (pre post : list json)
    (Hm : opt_bind (get request_json "messages") as_array = Some (pre ++ m :: post)%list)
    (Hu : is_user m = true)
    (Hpost : Forall (fun x => is_user x = false) post) :
  extract_user_message_text request_json = opt_bind (get m "content") extract_content_text.
Proof.
  unfold extract_user_message_text. rewrite Hm.
  rewrite rev_app_distr. simpl. rewrite <- app_assoc. rewrite find_app.
  rewrite find_none by (apply Forall_rev; exact Hpost).
  simpl. rewrite Hu. reflexivity.
Qed.

(** Witness: a user turn with two text blocks and an image, then an
    assistant turn. *)
Lemma extract_user_message_text_last_witness :
  let u0 := JObject [("role", JString "user"); ("content", JString "earlier")] in
  let u := JObject [("role", JString "user");
                    ("content", JArray [JObject [("type", JString "text"); ("text", JString "a")];
                                        JObject [("type", JString "image")];
                                        JObject [("type", JString "text"); ("text", JString "b")]])] in
  let r := JObject [("role", JString "assistant"); ("content", JString "z")] in
  extract_user_message_text (JObject [("messages", JArray [u0; u; r])])
  = opt_bind (get u "content") extract_content_text
  /\ opt_bind (get u "content") extract_content_text = Some ("a" ++ nl ++ "b").
Proof.
  intros u0 u r. split.
  - apply (extract_user_message_text_last _ u [u0] [r]); [reflexivity | reflexivity |].
    constructor; [reflexivity | constructor].
  - vm_compute. reflexivity.
Defined.

End JsonExtras.

(** ** Invariants of the agent store *)
Module AgentExtras.
Import AgentStore Scenarios.

Lemma nth_In_20 (xs : list string) (h : N) :
  length xs = 20 -> In (nth (N.to_nat (h mod 20)) xs "") xs.
Proof.
  intro Hl. apply nth_In. rewrite Hl.
  assert (H : (h mod 20 < 20)%N) by (apply N.mod_lt; discriminate). lia.
Qed.

(** Every generated name is an adjective of [ADJECTIVES], a dash and a
    noun of [NOUNS]. *)
Theorem generate_name_shape (hash : N) :
  exists adj noun, In adj ADJECTIVES /\ In noun NOUNS /\ generate_name hash = (adj ++ "-" ++ noun)%string.
Proof.
  exists (nth (N.to_nat (hash mod 20)) ADJECTIVES ""), (nth (N.to_nat (N.shiftr hash 32 mod 20)) NOUNS "").
  split; [apply nth_In_20; reflexivity|]. split; [apply nth_In_20; reflexivity|]. reflexivity.
Qed.

Ltac by_id := intro; match goal with |- context [Z.eqb ?x ?y] => destruct (Z.eqb x y) end; reflexivity.

Lemma map_field_map {B} (fld : Agent -> B) (f : Agent -> Agent) (t : Table) :
  (forall a, fld (f a) = fld a) -> map fld (map f t) = map fld t.
Proof. intro Hf. rewrite map_map. apply map_ext. exact Hf. Qed.

Lemma find_first_none (p : Agent -> bool) (t : Table) :
  find_first p t = None -> forall a, In a t -> p a = false.
Proof.
  induction t as [|b t IH]; simpl; [tauto|]. intros H a [<-|Ha].
  - destruct (p b); [discriminate | reflexivity].
  - destruct (p b); [discriminate | exact (IH H a Ha)].
Qed.

Lemma find_first_some (p : Agent -> bool) (t : Table) (a : Agent) :
  find_first p t = Some a -> In a t /\ p a = true.
Proof.
  induction t as [|b t IH]; simpl; [discriminate|].
  destruct (p b) eqn:E; intro H.
  - inversion H; subst. auto.
  - destruct (IH H). auto.
Qed.

Lemma NoDup_snoc {A} (l : list A) (x : A) : NoDup l -> ~ In x l -> NoDup (l ++ [x]).
Proof.
  intros Hl Hx. apply (Permutation_NoDup (l := x :: l)).
  - apply Permutation_cons_append.
  - constructor; assumption.
Qed.

Lemma not_in_map_find {B} (fld : Agent -> B) (p : Agent -> bool) (t : Table) (v : B) :
  (forall a, p a = false -> fld a <> v) -> find_first p t = None -> ~ In v (map fld t).
Proof.
  intros Hp Hf Hin. apply in_map_iff in Hin as (a & Ha & Hin).
  exact (Hp a (find_first_none p t Hf a Hin) Ha).
Qed.

Lemma get_or_create_unique_rows (now nid : Z) (draw : nat -> N) (t : Table)
    (sid : string) (wd : option string) (r : Result Agent) (t' : Table) :
  unique_rows t -> get_or_create_agent now nid draw t sid wd = (r, t') -> unique_rows t'.
Proof.
  intros (Hn & Hs & Hi). unfold get_or_create_agent.
  destruct (find_by_session_id t sid) as [agent|] eqn:Hf.
  - unfold update_working_directory, update_last_seen.
    destruct (is_some wd && negb (is_some (working_directory agent)));
      intro H; inversion H; subst; clear H; unfold unique_rows;
      rewrite ?map_field_map by by_id; auto.
  - match goal with |- context [insert t ?ag] => destruct (insert t ag) eqn:Hins end;
      intro H; inversion H; subst; clear H; [|split; auto].
    unfold insert in Hins.
    destruct (is_some (find_by_name t _)) eqn:Hname; [discriminate|].
    destruct (existsb _ t) eqn:Hid; [discriminate|].
    simpl in Hins. inversion Hins; subst; clear Hins.
    unfold unique_rows. rewrite !map_app. simpl.
    split; [|split]; apply NoDup_snoc; auto.
    + apply (not_in_map_find name (fun a => String.eqb a.(name) (pick_name t draw 10 0 (generate_name (draw 0)))) t).
      * intros a Ha. apply String.eqb_neq. exact Ha.
      * destruct (find_by_name t _) eqn:E; [discriminate | exact E].
    + apply (not_in_map_find session_id (fun a => String.eqb a.(session_id) sid) t).
      * intros a Ha. apply String.eqb_neq. exact Ha.
      * exact Hf.
    + intro Hin. apply in_map_iff in Hin as (a & Ha & Hin).
      assert (Hex : existsb (fun b => Z.eqb b.(id) nid) t = true)
        by (apply existsb_exists; exists a; split; [exact Hin | apply Z.eqb_eq; exact Ha]).
      simpl in Hid. rewrite Hex in Hid. discriminate.
Qed.

(** A failed [get_or_create_agent] (its [INSERT] was refused) leaves the
    table as it was; it only fails for a session not yet in the table. *)
Theorem get_or_create_err_unchanged (now nid : Z) (draw : nat -> N) (t : Table)
    (sid : string) (wd : option string) (e : DbError) (t' : Table)
    (H : get_or_create_agent now nid draw t sid wd = (Err e, t')) :
  t' = t /\ find_by_session_id t sid = None.
Proof.
  revert H. unfold get_or_create_agent.
  destruct (find_by_session_id t sid) as [agent|] eqn:Hf.
  - destruct (is_some wd && negb (is_some (working_directory agent))); intro H; inversion H.
  - match goal with |- context [insert t ?ag] => destruct (insert t ag) end;
      intro H; inversion H; subst; auto.
Qed.

(** Witness: every draw gives the taken name ["swift-fox"], so all
    eleven tries collide and the [INSERT] fails. *)
Lemma get_or_create_err_unchanged_witness :
  get_or_create_agent 5 2 (fun _ => 0%N) [stale_agent] "s2" None
  = (Err ConstraintViolation, [stale_agent])
  /\ [stale_agent] = [stale_agent] /\ find_by_session_id [stale_agent] "s2" = None.
Proof.
  assert (H : get_or_create_agent 5 2 (fun _ => 0%N) [stale_agent] "s2" None
              = (Err ConstraintViolation, [stale_agent])) by (vm_compute; reflexivity).
  split; [exact H|].
  exact (get_or_create_err_unchanged 5 2 (fun _ => 0%N) [stale_agent] "s2" None
           ConstraintViolation [stale_agent] H).
Defined.

(** For a known session, [get_or_create_agent] returns the agent as it was
    read before its update: its [last_seen_at] and [status] are the old
    ones, while the stored row has [now] and [Active]. *)
Theorem get_or_create_returns_stale (now nid : Z) (draw : nat -> N) (t : Table)
    (sid : string) (wd : option string) (b a : Agent) (t' : Table)
    (Hb : find_by_session_id t sid = Some b)
    (H : get_or_create_agent now nid draw t sid wd = (Ok a, t')) :
  a.(last_seen_at) = b.(last_seen_at) /\ a.(status) = b.(status)
  /\ exists a', find_by_session_id t' sid = Some a' /\ a'.(id) = a.(id)
       /\ a'.(last_seen_at) = now /\ a'.(status) = Active.
Proof.
  destruct (AgentFacts.get_or_create_ok_row _ _ _ _ _ _ _ _ H) as (a' & Ha' & Hid & _ & Hls & Hst & _).
  revert H. unfold get_or_create_agent. rewrite Hb.
  destruct (is_some wd && negb (is_some (working_directory b))); intro H; inversion H; subst;
    (split; [reflexivity|]); (split; [reflexivity|]); exists a'; auto.
Qed.

(** Witness: the agent last seen at time 0 is seen again at time 10
    minutes; the call still returns [last_seen_at = 0]. *)
Lemma get_or_create_returns_stale_witness :
  let res := get_or_create_agent (10 * Cli.minute) 2 (fun _ => 0%N) [stale_agent] "s" None in
  fst res = Ok stale_agent
  /\ (stale_agent.(last_seen_at) = stale_agent.(last_seen_at) /\ stale_agent.(status) = stale_agent.(status)
      /\ exists a', find_by_session_id (snd res) "s" = Some a' /\ a'.(id) = stale_agent.(id)
         /\ a'.(last_seen_at) = (10 * Cli.minute)%Z /\ a'.(status) = Active).
Proof.
  intro res.
  assert (H : get_or_create_agent (10 * Cli.minute) 2 (fun _ => 0%N) [stale_agent] "s" None
              = (Ok stale_agent, snd res)) by (vm_compute; reflexivity).
  split; [vm_compute; reflexivity|].
  exact (get_or_create_returns_stale (10 * Cli.minute) 2 (fun _ => 0%N) [stale_agent] "s" None
           stale_agent stale_agent (snd res) eq_refl H).
Defined.

Lemma find_by_name_unique (t : Table) (a : Agent) :
  NoDup (map name t) -> In a t -> find_by_name t a.(name) = Some a.
Proof.
  unfold find_by_name. induction t as [|b t IH]; simpl; [tauto|].
  intros Hnd [<-|Hin].
  - rewrite String.eqb_refl. reflexivity.
  - inversion Hnd as [|? ? Hnot Hnd']; subst.
    destruct (String.eqb (name b) (name a)) eqn:E.
    + apply String.eqb_eq in E. exfalso. apply Hnot. rewrite E. apply in_map. exact Hin.
    + apply IH; assumption.
Qed.

(** Round trip with [resume]: after [get_or_create_agent] returned an
    agent for a session, looking its name up ([find_by_name], as
    [sentinel resume <name>] does) finds the row of that session. *)
Theorem resume_finds_session (now nid : Z) (draw : nat -> N) (t : Table)
    (sid : string) (wd : option string) (a : Agent) (t' : Table)
    (Hu : unique_rows t)
    (H : get_or_create_agent now nid draw t sid wd = (Ok a, t')) :
  exists a', find_by_name t' a.(name) = Some a' /\ a'.(session_id) = sid.
Proof.
  destruct (get_or_create_unique_rows _ _ _ _ _ _ _ _ Hu H) as (Hn & _ & _).
  destruct (AgentFacts.get_or_create_ok_row _ _ _ _ _ _ _ _ H) as (a' & Ha' & _ & Hnm & _).
  destruct (find_first_some _ _ _ Ha') as [Hin Hs].
  exists a'. split.
  - rewrite <- Hnm. apply find_by_name_unique; assumption.
  - apply String.eqb_eq. exact Hs.
Qed.

(** Witness: the second session of the store above, named ["bright-fox"]. *)
Lemma resume_finds_session_witness :
  let res := get_or_create_agent 5 2 N.of_nat [stale_agent] "s2" None in
  match fst res with
  | Ok a => a.(name) = "bright-fox"
            /\ exists a', find_by_name (snd res) a.(name) = Some a' /\ a'.(session_id) = "s2"
  | Err _ => False
  end.
Proof.
  intro res.
  assert (Hu : unique_rows [stale_agent]) by (repeat split; repeat constructor; simpl; tauto).
  pose proof (resume_finds_session 5 2 N.of_nat [stale_agent] "s2" None) as R.
  revert R. unfold res. destruct (get_or_create_agent 5 2 N.of_nat [stale_agent] "s2" None) as [r t'] eqn:E.
  vm_compute in E. inversion E; subst. intro R. simpl. split; [reflexivity|].
  exact (R _ _ Hu eq_refl).
Defined.

End AgentExtras.

(** ** The [events] table *)
Module EventExtras.
Import EventStore.










End EventExtras.

(** ** [truncate_path_for_display] *)
Module DisplayExtras.
Import Display.

Lemma slen_app (a b : string) : String.length (a ++ b) = String.length a + String.length b.
Proof. induction a as [|c a IH]; simpl; [reflexivity|]. rewrite IH. reflexivity. Qed.

Lemma substring_length (s : string) (n m : nat) :
  n + m <= String.length s -> String.length (substring n m s) = m.
Proof.
  revert n m. induction s as [|c s IH]; intros n m H; simpl in H.
  - assert (n = 0 /\ m = 0) as [-> ->] by lia. reflexivity.
  - destruct n as [|n].
    + destruct m as [|m]; [reflexivity|]. simpl. rewrite IH by lia. reflexivity.
    + simpl. apply IH. lia.
Qed.

Lemma get_lt (s : string) (n : nat) : n < String.length s -> String.get n s <> None.
Proof.
  revert n. induction s as [|c s IH]; intros n H; simpl in H; [lia|].
  destruct n as [|n]; simpl; [discriminate | apply IH; lia].
Qed.

(** [truncate_path_for_display] returns a path that fits as it is;
    otherwise ["..."] and the path's last [max_len - 3] bytes, which is
    [max_len] bytes long, or three bytes when [max_len < 3]. *)
Theorem truncate_path_for_display_shape (path : string) (max_len : nat) (r : string)
    (H : truncate_path_for_display path max_len = Some r) :
  (String.length path <= max_len /\ r = path)
  \/ (max_len < String.length path /\ String.length r = Nat.max max_len 3
      /\ exists pre suffix, path = (pre ++ suffix)%string /\ r = ("..." ++ suffix)%string
           /\ String.length suffix = max_len - 3).
Proof.
  revert H. unfold truncate_path_for_display.
  destruct (max_len <? String.length path) eqn:E.
  - apply Nat.ltb_lt in E.
    destruct (is_char_boundary _ _); intro H; inversion H; subst; clear H.
    right. set (k := max_len - 3). set (st := String.length path - k).
    assert (Hl : String.length (substring st k path) = k) by (apply substring_length; lia).
    split; [exact E|]. split; [simpl; rewrite Hl; lia|].
    exists (substring 0 st path), (substring st k path).
    split; [|split; [reflexivity | exact Hl]].
    symmetry. apply StreamExtras.substring_split. lia.
  - apply Nat.ltb_ge in E. intro H; inversion H; subst. left. auto.
Qed.

(** Witness: a 38-byte path shown in 30 columns, as [show_agents] does. *)
Lemma truncate_path_for_display_shape_witness :
  let path := "/home/user/projects/sentinel/proxy/src" in
  let r := "...projects/sentinel/proxy/src" in
  truncate_path_for_display path 30 = Some r
  /\ ((String.length path <= 30 /\ r = path)
      \/ (30 < String.length path /\ String.length r = Nat.max 30 3
          /\ exists pre suffix, path = (pre ++ suffix)%string /\ r = ("..." ++ suffix)%string
               /\ String.length suffix = 30 - 3)).
Proof.
  intros path r.
  assert (H : truncate_path_for_display path 30 = Some r) by (vm_compute; reflexivity).
  split; [exact H | exact (truncate_path_for_display_shape path 30 r H)].
Defined.

(** For a path longer than [max_len > 3], [truncate_path_for_display]
    panics exactly when the cut, [max_len - 3] bytes before the end, falls
    inside a multi-byte character (on a UTF-8 continuation byte). *)
Theorem truncate_path_for_display_panics (path : string) (max_len : nat)
    (H3 : 3 < max_len) (Hlt : max_len < String.length path) :
  truncate_path_for_display path max_len = None
  <-> exists c, String.get (String.length path - (max_len - 3)) path = Some c /\ Proxy.is_cont c = true.
Proof.
  unfold truncate_path_for_display, is_char_boundary.
  rewrite (proj2 (Nat.ltb_lt _ _) Hlt). cbv zeta.
  rewrite (proj2 (Nat.eqb_neq (String.length path - (max_len - 3)) 0)) by lia.
  rewrite (proj2 (Nat.eqb_neq (String.length path - (max_len - 3)) (String.length path))) by lia.
  cbn [orb].
  destruct (String.get (String.length path - (max_len - 3)) path) as [c|] eqn:G.
  - destruct (Proxy.is_cont c) eqn:C; cbn [negb].
    + split; [intros _; exists c; auto | reflexivity].
    + split; [discriminate|]. intros (c' & Hc' & Hcc). inversion Hc'; subst. congruence.
  - exfalso. apply (get_lt path (String.length path - (max_len - 3))); [lia | exact G].
Qed.

(** Witness: in a 34-byte path the cut for 30 columns lands on the second
    byte of ["é"]. *)
Lemma truncate_path_for_display_panics_witness :
  let path := ("/home/" ++ String (byte 195) (String (byte 169) "projects/sentinel/src/main"))%string in
  truncate_path_for_display path 30 = None.
Proof.
  intro path.
  apply (proj2 (truncate_path_for_display_panics path 30 ltac:(lia) ltac:(vm_compute; lia))).
  exists (byte 169). split; vm_compute; reflexivity.
Defined.

End DisplayExtras.

(** ** The proxy handler *)
Module HandlerExtras.
Import AgentStore Request Handler.

Lemma request_phase_telemetry (now nid : Z) (draw : nat -> N) (t : Table) (path : string) (rj : json) :
  (request_phase now nid draw t path rj).(is_telemetry) = contains "event_logging" path.
Proof.
  unfold request_phase.
  match goal with |- context [let '(_, _) := ?m in _] => destruct m end. reflexivity.
Qed.

Lemma mirror_task_telemetry (accepts : option nat) (chunks : list chunk_result) :
  mirror_task true accepts chunks = None.
Proof. unfold mirror_task. destruct (mirror_loop accepts 0 chunks []). reflexivity. Qed.

(** A request whose path contains [event_logging] stores and broadcasts
    no event at all, whatever the upstream answers; its session is still
    tracked in the agents table. *)
Theorem proxy_telemetry_silent (json_to_string : json -> string) (now nid : Z) (draw : nat -> N)
    (t : Table) (method path path_and_query : string) (headers : Headers) (body_bytes : string)
    (upstream : Upstream) (accepts : option nat)
    (Ht : contains "event_logging" path = true) :
  let o := proxy_handler json_to_string now nid draw t method path path_and_query headers
             (Some body_bytes) upstream accepts in
  o.(events) = [] /\ o.(agents) = (request_phase now nid draw t path (decoded body_bytes)).(agents_after).
Proof.
  unfold proxy_handler, decoded. cbv zeta. rewrite request_phase_telemetry, Ht.
  destruct upstream as [|status hs chunks]; [split; reflexivity|].
  destruct (is_streaming hs).
  - rewrite mirror_task_telemetry. split; reflexivity.
  - unfold handle_regular_response.
    destruct (read_all chunks); split; reflexivity.
Qed.

(** Witness: a telemetry batch answered by a JSON body. *)
Lemma proxy_telemetry_silent_witness :
  let o := proxy_handler (fun _ => EmptyString) 1 7 (fun _ => 0%N) [] "POST" "/api/event_logging/batch"
             "/api/event_logging/batch" [] (Some "{}") (UpstreamResponse 200 [] [ChunkOk "{}"]) None in
  o.(events) = []
  /\ o.(agents) = (request_phase 1 7 (fun _ => 0%N) [] "/api/event_logging/batch" (decoded "{}")).(agents_after).
Proof.
  exact (proxy_telemetry_silent (fun _ => EmptyString) 1 7 (fun _ => 0%N) [] "POST"
           "/api/event_logging/batch" "/api/event_logging/batch" [] "{}"
           (UpstreamResponse 200 [] [ChunkOk "{}"]) None eq_refl).
Defined.

End HandlerExtras.

(** ** The subscriber endpoint *)
Module SseExtras.
Import Sse.


Lemma recv_lagged (ch : Channel) (next k n' : nat) :
  recv ch next = (Lagged k, n') ->
  next + ch.(buffer_len) < length ch.(sent) /\ k = length ch.(sent) - ch.(buffer_len) - next
  /\ n' = length ch.(sent) - ch.(buffer_len).
Proof.
  unfold recv.
  destruct (length (sent ch) <=? next); [intro H; inversion H|].
  destruct (next + buffer_len ch <? length (sent ch)) eqn:E.
  - intro H; inversion H; subst. apply Nat.ltb_lt in E. auto.
  - destruct (nth_error (sent ch) next); intro H; inversion H.
Qed.

(** A subscriber that lags by [k] events skips exactly those [k] and
    resumes at the oldest event still buffered, which its next [recv]
    returns (for a non-empty buffer). *)
Theorem recv_lagged_resumes (ch : Channel) (next k n' : nat)
    (H : recv ch next = (Lagged k, n')) :
  0 < k /\ n' = next + k /\ n' = length ch.(sent) - ch.(buffer_len)
  /\ (0 < ch.(buffer_len) ->
      exists e, nth_error ch.(sent) n' = Some e /\ recv ch n' = (RecvOk e, S n')).
Proof.
  destruct (recv_lagged ch next k n' H) as (Hlt & Hk & Hn).
  split; [lia|]. split; [lia|]. split; [exact Hn|].
  intro Hb. destruct (nth_error (sent ch) n') as [e|] eqn:En.
  - exists e. split; [reflexivity|]. unfold recv.
    assert (E1 : (length (sent ch) <=? n') = false) by (apply Nat.leb_gt; lia).
    assert (E2 : (n' + buffer_len ch <? length (sent ch)) = false) by (apply Nat.ltb_ge; lia).
    rewrite E1, E2, En. reflexivity.
  - apply nth_error_None in En. lia.
Qed.

(** Witness: the subscriber 72 events behind on the busy channel. *)
Lemma recv_lagged_resumes_witness :
  recv Scenarios.busy_channel 0 = (Lagged 72, 72)
  /\ (0 < 72 /\ 72 = 0 + 72 /\ 72 = length Scenarios.busy_channel.(sent) - Scenarios.busy_channel.(buffer_len)
      /\ (0 < Scenarios.busy_channel.(buffer_len) ->
          exists e, nth_error Scenarios.busy_channel.(sent) 72 = Some e
                    /\ recv Scenarios.busy_channel 72 = (RecvOk e, 73))).
Proof.
  assert (H : recv Scenarios.busy_channel 0 = (Lagged 72, 72)) by (vm_compute; reflexivity).
  split; [exact H | exact (recv_lagged_resumes Scenarios.busy_channel 0 72 72 H)].
Defined.



End SseExtras.
